(** * LLMSimu: a shallow embedding of the simulation's JavaScript modules

    The development follows the layout of the repository's [js/] directory:
    one Rocq module per JavaScript object ([CONFIG] of [config.js],
    [TokenizerVisualizer], [EmbeddingsVisualizer], [AttentionVisualizer],
    [OutputVisualizer], [ZenMuxAPI], [App]), each holding the data the
    object holds and one definition per method, with the source's names.
    The theorems come after all the definitions.

    Conventions.
    - A JavaScript string is the list of its UTF-16 code units ([list N]);
      [js "..."] writes an ASCII literal.
    - A JavaScript number is an IEEE 754 binary64 value (the kernel's
      [float]) wherever the source only uses the four operations and
      comparisons; the attention generator, which needs [Math.exp], is
      modelled over the real numbers (see [Attention]).
    - A call that can throw returns a [completion]; mutable objects are
      records passed in and out of the functions that mutate them.
    - [Math.random] is an oracle: a function from the rank of the call to
      the value drawn, together with the rank of the next call. *)

From Stdlib Require Import ZArith NArith List String Ascii DecimalString Lia.
From Stdlib Require Import Uint63 Floats Reals Lra.
From stdpp Require Import gmap list.

Set Warnings "-inexact-float,-register-all".
Open Scope float_scope.
Open Scope general_if_scope.

(** ** JavaScript values shared by the modules *)

Module JS.

(** An ASCII literal as a JavaScript string (code units below 128). *)
Definition js (s : string) : list N :=
  map N_of_ascii (list_ascii_of_string s).

(** Decimal rendering of a non-negative integer, as a template literal
    [`${n}`] prints it. *)
Definition decimal (n : N) : list N :=
  js (NilEmpty.string_of_uint (N.to_uint n)).

(** An [Error] object: only its [message] is ever read. *)
Record JSError := mkError { message : list N }.

(** Completion of a call: a normal return or a thrown error. *)
Inductive completion (A : Type) :=
| Normal (a : A)
| Throw (e : JSError).
Arguments Normal {A} a.
Arguments Throw {A} e.

(** [String.prototype.startsWith]. *)
Fixpoint startsWith (s prefix : list N) : bool :=
  match prefix, s with
  | [], _ => true
  | p :: prefix', c :: s' => N.eqb p c && startsWith s' prefix'
  | _ :: _, [] => false
  end.

(** White space and line terminators, the code units [trim] strips. *)
Definition isWhiteSpace (c : N) : bool :=
  ((9 <=? c) && (c <=? 13) || (c =? 32) || (c =? 160) || (c =? 5760)
   || ((8192 <=? c) && (c <=? 8202)) || (c =? 8232) || (c =? 8233)
   || (c =? 8239) || (c =? 8287) || (c =? 12288) || (c =? 65279))%N.

Fixpoint trimStart (s : list N) : list N :=
  match s with
  | c :: s' => if isWhiteSpace c then trimStart s' else s
  | [] => []
  end.

(** [String.prototype.trim]. *)
Definition trim (s : list N) : list N :=
  rev (trimStart (rev (trimStart s))).

(** [s.split('\n')]: the pieces between line feeds, at least one piece. *)
Fixpoint split_lf (s : list N) : list N * list (list N) :=
  match s with
  | [] => ([], [])
  | c :: s' =>
      let '(piece, pieces) := split_lf s' in
      if (c =? 10)%N then ([], piece :: pieces) else (c :: piece, pieces)
  end.

Definition split (s : list N) : list (list N) :=
  let '(piece, pieces) := split_lf s in piece :: pieces.

End JS.
Export JS.

(** ** config.js *)

Module Config.

(** [CONFIG.visualization]. *)
Record Visualization := {
  embeddingDimensions : nat;
  attentionMaxTokens : nat;
  ffnLayers : nat;
  ffnNeuronsPerLayer : nat;
  topKOutputTokens : nat
}.

(** The mutable [CONFIG] object (the [api] block is only read by the
    transport, which is an oracle here), and the one style property of the
    document that [setSpeed] writes. *)
Record Config := {
  timing : gmap (list N) float;
  speedMultiplier : float;
  visualization : Visualization;
  tokenColors : list (list N);
  speed_multiplier_property : option float
}.

(** The object literal of the source file. *)
Definition CONFIG : Config := {|
  timing := list_to_map
    [ (js "tokenDelay", 100); (js "layerTransition", 500);
      (js "embeddingBuild", 800); (js "attentionDraw", 1000);
      (js "ffnProcess", 1200); (js "outputTokenDelay", 50) ];
  speedMultiplier := 1;
  visualization := {|
    embeddingDimensions := 8;
    attentionMaxTokens := 12;
    ffnLayers := 3;
    ffnNeuronsPerLayer := 5;
    topKOutputTokens := 5 |};
  tokenColors :=
    [js "cyan"; js "magenta"; js "green"; js "orange"; js "purple"];
  speed_multiplier_property := None
|}.

(** [CONFIG.timing[key]] used as a number: a key that is not an own
    property reads as [undefined] (or as an inherited method), and either
    converts to NaN. *)
Definition timing_number (c : Config) (key : list N) : float :=
  match timing c !! key with
  | Some base => base
  | None => nan
  end.

(** [getTiming(key)]: one division, no check and no [throw]. *)
Definition getTiming (key : list N) (c : Config) : completion float :=
  Normal (timing_number c key / speedMultiplier c).

(** [setSpeed(multiplier)]: two unconditional assignments. *)
Definition setSpeed (multiplier : float) (c : Config) : Config :=
  {| timing := timing c;
     speedMultiplier := multiplier;
     visualization := visualization c;
     tokenColors := tokenColors c;
     speed_multiplier_property := Some (1 / multiplier) |}.

(** A sequence of [setSpeed] calls, first call first. *)
Definition setSpeeds (ms : list float) (c : Config) : Config :=
  fold_left (fun c m => setSpeed m c) ms c.

End Config.

(** ** tokenizer.js *)

Module Tokenizer.

(** The visualizer object; [container] is a DOM node and is left out. *)
Record TokenizerVisualizer := { tokens : list (list N) }.

(** [\w]: ASCII letters, digits and the underscore. *)
Definition isWordChar (c : N) : bool :=
  ((65 <=? c) && (c <=? 90) || (97 <=? c) && (c <=? 122)
   || (48 <=? c) && (c <=? 57) || (c =? 95))%N.

(** First alternative's class, [[\w']]. *)
Definition isWordOrApostrophe (c : N) : bool :=
  isWordChar c || (c =? 39)%N.

(** Second alternative's class:
    . , ! ? ; : ' double-quote ( ) [ ] { } em-dash en-dash hyphen. *)
Definition isPunctuation (c : N) : bool :=
  existsb (N.eqb c)
    [46; 44; 33; 63; 59; 58; 39; 34; 40; 41; 91; 93; 123; 125;
     8212; 8211; 45]%N.

(** The longest prefix in a class, and what follows it (a greedy [+]). *)
Fixpoint span (p : N -> bool) (s : list N) : list N * list N :=
  match s with
  | c :: s' =>
      if p c then let '(run, rest) := span p s' in (c :: run, rest)
      else ([], s)
  | [] => ([], [])
  end.

(** One attempt of the regular expression at the head of [s]: the match
    and the text after it.  The first alternative is tried first. *)
Definition exec_at (s : list N) : option (list N * list N) :=
  match span isWordOrApostrophe s with
  | (c :: run, rest) => Some (c :: run, rest)
  | ([], _) =>
      match s with
      | c :: rest => if isPunctuation c then Some ([c], rest) else None
      | [] => None
      end
  end.

(** The successive matches of a global ([/g]) search: after a match the
    search resumes behind it, after a failure one code unit further.  Every
    step consumes a code unit, so [length s] steps of fuel reach the end. *)
Fixpoint matches (fuel : nat) (s : list N) : list (list N) :=
  match fuel, s with
  | S fuel', _ :: s' =>
      match exec_at s with
      | Some (m, rest) => m :: matches fuel' rest
      | None => matches fuel' s'
      end
  | _, _ => []
  end.

(** [text.match(/.../g)]: the array of matches, or [null] without one. *)
Definition String_match (text : list N) : option (list (list N)) :=
  match matches (length text) text with
  | [] => None
  | ms => Some ms
  end.

Definition BOS : list N := js "<BOS>".
Definition EOS : list N := js "<EOS>".

(** [tokenize(text)]: stores the token array and returns it. *)
Definition tokenize (text : list N) (tv : TokenizerVisualizer)
  : list (list N) * TokenizerVisualizer :=
  let rawTokens := default [] (String_match text) in
  let toks := BOS :: rawTokens ++ [EOS] in
  (toks, {| tokens := toks |}).

(** [clear()], as far as the object's own data goes. *)
Definition clear (tv : TokenizerVisualizer) : TokenizerVisualizer :=
  {| tokens := [] |}.

Definition getTokens (tv : TokenizerVisualizer) : list (list N) :=
  tokens tv.

(** [getTokenCount()]: the tokens that do not start with ["<"]. *)
Definition getTokenCount (tv : TokenizerVisualizer) : nat :=
  length (filter (fun t => negb (startsWith t (js "<"))) (tokens tv)).

End Tokenizer.

(** ** embeddings.js: the [EmbeddingsVisualizer] object *)

Module Embeddings.
Import Config.

(** One element of [this.embeddings]. *)
Record Embedding := {
  token : list N;
  index : nat;
  values : list float
}.

Record EmbeddingsVisualizer := { embeddings : list Embedding }.

(** Conversion of an integer-valued number to a signed 32-bit integer,
    which every bitwise operator applies to its operands. *)
Definition ToInt32 (z : Z) : Z := ((z + 2 ^ 31) mod 2 ^ 32 - 2 ^ 31)%Z.

(** The loop body of [hashToken]:
    [hash = ((hash << 5) - hash) + char; hash = hash & hash]. *)
Definition hash_step (hash : Z) (char : N) : Z :=
  let hash := (ToInt32 (Z.shiftl (ToInt32 hash) 5) - hash + Z.of_N char)%Z in
  Z.land (ToInt32 hash) (ToInt32 hash).

(** [hashToken(token)]: the loop over [charCodeAt(i)], then [Math.abs]. *)
Definition hashToken (token : list N) : Z :=
  Z.abs (fold_left hash_step token 0%Z).

(** An integer in the range of exactly represented numbers, as a float. *)
Definition number_of_Z (z : Z) : float :=
  PrimFloat.of_uint63 (Uint63.of_Z z).

(** The argument of [%] in the inner loop; it stays an exact integer (see
    [embedding_argument_exact]), so it is computed in [Z]. *)
Definition lcg_argument (seed : Z) (i : nat) : Z :=
  (seed * (Z.of_nat i + 1) * 9301 + 49297)%Z.

(** [0.1 + 0.9 * ((seed * (i + 1) * 9301 + 49297) % 233280) / 233280]. *)
Definition embedding_value (seed : Z) (i : nat) : float :=
  0.1 + 0.9 * number_of_Z (lcg_argument seed i mod 233280) / 233280.

(** The inner [for] loop: [dims] values pushed in order. *)
Definition embedding_values (dims : nat) (seed : Z) : list float :=
  map (embedding_value seed) (seq 0 dims).

(** [generateEmbeddings(tokens)]: [tokens.map((token, index) => ...)],
    stored in the visualizer and returned. *)
Definition generateEmbeddings (toks : list (list N)) (c : Config)
    (ev : EmbeddingsVisualizer)
  : list Embedding * EmbeddingsVisualizer :=
  let dims := embeddingDimensions (visualization c) in
  let embs :=
    imap (fun index token =>
            let seed := hashToken token in
            {| token := token; index := index;
               values := embedding_values dims seed |}) toks in
  (embs, {| embeddings := embs |}).

Definition clear (ev : EmbeddingsVisualizer) : EmbeddingsVisualizer :=
  {| embeddings := [] |}.

Definition getEmbeddings (ev : EmbeddingsVisualizer) : list Embedding :=
  embeddings ev.

End Embeddings.

(** ** attention.js: the [AttentionVisualizer] object

    The weights are built from [Math.exp] and [Math.random] and then
    divided by their sum.  They are modelled over the real numbers, of
    which the source's doubles are roundings: the row sums are then exact,
    where the source's are 1 up to rounding. *)

Module Attention.
Import Config.

(** The visualizer object; the canvas and its context are left out. *)
Record AttentionVisualizer := {
  tokens : list (list N);
  attentionWeights : list (list R)
}.

Section Generator.

(** [Math.random]: the value of the draw of each rank. *)
Variable random : nat -> R.

(** The body of the inner loop, the entry for query [i] and key [j]; [k]
    is the rank of the next draw, which only an unmasked entry uses. *)
Definition weight (i j k : nat) : R * nat :=
  if (j <=? i)%nat then
    let distance := (i - j)%nat in
    let baseWeight := exp ((- INR distance) * 0.3) in
    let noise := (0.3 * random k)%R in
    (Rmin 1 (baseWeight + noise), S k)
  else (0%R, k).

(** [for (let j = 0; j < n; j++) row.push(...)], over the column indices. *)
Fixpoint build_row (i : nat) (cols : list nat) (k : nat) : list R * nat :=
  match cols with
  | [] => ([], k)
  | j :: cols' =>
      let '(w, k1) := weight i j k in
      let '(row, k2) := build_row i cols' k1 in
      (w :: row, k2)
  end.

(** [row.reduce((a, b) => a + b, 0)]. *)
Definition row_sum (row : list R) : R := fold_left Rplus row 0%R.

(** [row.map(w => w / sum)]. *)
Definition normalize (row : list R) : list R :=
  let sum := row_sum row in map (fun w => (w / sum)%R) row.

(** The outer loop, over the row indices. *)
Fixpoint build_rows (n : nat) (rows : list nat) (k : nat)
  : list (list R) * nat :=
  match rows with
  | [] => ([], k)
  | i :: rows' =>
      let '(row, k1) := build_row i (seq 0 n) k in
      let '(ws, k2) := build_rows n rows' k1 in
      (normalize row :: ws, k2)
  end.

(** [generateAttentionWeights(tokens)]: the matrix, the updated object and
    the rank of the next draw. *)
Definition generateAttentionWeights (toks : list (list N)) (c : Config)
    (k : nat) (av : AttentionVisualizer)
  : list (list R) * AttentionVisualizer * nat :=
  let n := Nat.min (length toks) (attentionMaxTokens (visualization c)) in
  let '(ws, k') := build_rows n (seq 0 n) k in
  (ws, {| tokens := take n toks; attentionWeights := ws |}, k').

End Generator.

Definition clear (av : AttentionVisualizer) : AttentionVisualizer :=
  {| tokens := []; attentionWeights := [] |}.

(** What the entry for query [i] and key [j] is before its row is
    normalized: non-negative, 1 on the diagonal, 0 above it. *)
Definition raw_entry (i j : nat) (w : R) : Prop :=
  (0 <= w)%R /\ (j = i -> w = 1%R) /\ ((i < j)%nat -> w = 0%R).

(** Row [i] of a causal, normalized [n] by [n] matrix. *)
Definition row_ok (n i : nat) (row : list R) : Prop :=
  length row = n /\
  (forall j, (i < j)%nat -> (j < n)%nat -> row !! j = Some 0%R) /\
  row_sum row = 1%R.

End Attention.

(** ** output.js: the [OutputVisualizer] object

    [Array.prototype.sort] is stable and the comparator is a difference of
    probabilities, so on finite probabilities the sorted array is the one
    the stable insertion sort below builds. *)

Module Output.
Import Config.

(** One row of the distribution. *)
Record Entry := {
  token : list N;
  probability : float;
  selected : bool
}.

Record OutputVisualizer := { currentTokens : list Entry }.

(** The candidate vocabulary, a fresh array at every call. *)
Definition vocabulary : list (list N) :=
  map js
    [ "The"; "a"; "is"; "in"; "to"; "and"; "of"; "that"; "for"; "it";
      "with"; "as"; "on"; "be"; "at"; "by"; "this"; "have"; "from"; "or";
      "one"; "all"; "would"; "there"; "their"; "what"; "so"; "up"; "out";
      "if"; "about"; "who"; "get"; "which"; "when"; "make"; "can"; "like";
      "time"; "just"; "life"; "meaning"; "purpose"; "human"; "question";
      "answer"; "exist"; "world"; "think"; "believe" ]%string.

(** A string in a condition: only the empty string is falsy. *)
Definition truthy (s : list N) : bool :=
  match s with [] => false | _ :: _ => true end.

(** The vocabulary after
    [if (selectedToken && !vocabulary.includes(selectedToken))
       vocabulary[0] = selectedToken]. *)
Definition candidates (selectedToken : list N) : list (list N) :=
  if truthy selectedToken && negb (bool_decide (selectedToken ∈ vocabulary))
  then <[0%nat := selectedToken]> vocabulary
  else vocabulary.

(** [0.5 ** k] for a natural [k], by exact halvings. *)
Definition pow_half (k : nat) : float :=
  Nat.iter k (fun x => x * 0.5) 1.

(** The comparator [(a, b) => b.probability - a.probability]. *)
Definition compareFn (a b : Entry) : float :=
  probability b - probability a.

(** [Array.prototype.sort] as the stable insertion sort: an element goes
    in front of the first one that the comparator puts after it. *)
Fixpoint insert_sorted (x : Entry) (l : list Entry) : list Entry :=
  match l with
  | [] => [x]
  | y :: l' =>
      if 0 <? compareFn y x then x :: y :: l' else y :: insert_sorted x l'
  end.

Definition sort (l : list Entry) : list Entry :=
  fold_left (fun sorted x => insert_sorted x sorted) l [].

Section Generator.

(** [Math.random]: the value of the draw of each rank. *)
Variable random : nat -> float.

(** [generateDistribution(selectedToken)]: the sorted rows, the updated
    object and the rank of the next draw. *)
Definition generateDistribution (selectedToken : list N) (c : Config)
    (k : nat) (ov : OutputVisualizer)
  : list Entry * OutputVisualizer * nat :=
  let topK := topKOutputTokens (visualization c) in
  let vocabulary := candidates selectedToken in
  let '(probs, remaining, k') :=
    if truthy selectedToken then
      let selectedProb := 0.3 + random k * 0.3 in
      ([ {| token := selectedToken; probability := selectedProb;
            selected := true |} ],
       1.0 - selectedProb, S k)
    else ([], 1.0, k) in
  let otherTokens := filter (fun t => t <> selectedToken) vocabulary in
  let others :=
    imap (fun i t =>
            {| token := t; probability := remaining * pow_half (i + 1);
               selected := false |})
         (take (topK - 1) otherTokens) in
  let probs := sort (probs ++ others) in
  (probs, {| currentTokens := probs |}, k').

End Generator.

Definition clear (ov : OutputVisualizer) : OutputVisualizer :=
  {| currentTokens := [] |}.

End Output.

(** ** api.js: the streaming client, the [ZenMuxAPI] object

    The network is an oracle: what [fetch] settles to for a prompt, and,
    for a response, its status, what [response.text()] settles to, the
    decoded text of the successive reads of the body and how the body ends
    (exhausted, or a failing read).  Every awaited promise of the transport
    is taken to settle.  The callbacks are the caller's: functions on a
    caller state that may throw.  The model logs every invocation of a
    callback, in order. *)

Module Api.

(** The result of [JSON.parse]. *)
Inductive JSON :=
| JNull
| JBool (b : bool)
| JNumber (x : float)
| JString (s : list N)
| JArray (items : list JSON)
| JObject (props : list (list N * JSON)).

(** An own property of an object literal, [undefined] ([None]) without. *)
Fixpoint own (props : list (list N * JSON)) (key : list N) : option JSON :=
  match props with
  | [] => None
  | (k, v) :: props' => if bool_decide (k = key) then Some v else own props' key
  end.

(** [v?.key] for a key that is no array index and no built-in property:
    [undefined] unless [v] is an object that owns it. *)
Definition optional_get (v : option JSON) (key : list N) : option JSON :=
  match v with
  | Some (JObject props) => own props key
  | _ => None
  end.

(** [v?.[0]]. *)
Definition optional_first (v : option JSON) : option JSON :=
  match v with
  | Some (JArray items) => items !! 0%nat
  | Some (JObject props) => own props (js "0")
  | Some (JString (c :: _)) => Some (JString [c])
  | _ => None
  end.

(** [parsed.choices?.[0]?.delta] and then [delta?.content]: reading
    [choices] off [null] throws a TypeError, everything after is optional. *)
Definition delta_content (parsed : JSON) : completion (option JSON) :=
  match parsed with
  | JNull =>
      Throw (mkError (js "Cannot read properties of null (reading 'choices')"))
  | _ =>
      let delta :=
        optional_get (optional_first (optional_get (Some parsed) (js "choices")))
          (js "delta") in
      Normal (optional_get delta (js "content"))
  end.

(** A value in a condition. *)
Definition truthy (v : JSON) : bool :=
  match v with
  | JNull => false
  | JBool b => b
  | JNumber x => negb (x =? 0) && (x =? x)
  | JString s => match s with [] => false | _ => true end
  | JArray _ | JObject _ => true
  end.

(** The transport oracle. *)
Record Response := {
  ok : bool;
  status : N;
  text : completion (list N);
  chunks : list (list N);
  ending : option JSError
}.

Inductive FetchResult :=
| FetchRejected (e : JSError)
| FetchResolved (response : Response).

(** The caller's callbacks on a caller state [S]; [Some e] in the result
    is an exception thrown by the callback. *)
Record Callbacks (S : Type) := {
  onToken : JSON -> S -> S * option JSError;
  onComplete : S -> S * option JSError;
  onError : JSError -> S -> S * option JSError
}.
Arguments onToken {S} _ _ _.
Arguments onComplete {S} _ _.
Arguments onError {S} _ _ _.

(** The log of callback invocations. *)
Inductive Event :=
| EvToken (content : JSON)
| EvComplete
| EvError (e : JSError).

(** How the [for (const line of lines)] loop is left. *)
Inductive LoopExit :=
| Continue
| Return
| Raise (e : JSError).

(** [lines.pop()]: the last element and the array without it. *)
Definition pop {A : Type} (l : list A) : option A * list A :=
  (last l, removelast l).

Section StreamCompletion.

Variable JSON_parse : list N -> completion JSON.
Variable fetch : list N -> FetchResult.
Context {S : Type}.
Variable cb : Callbacks S.

Definition call_onToken (content : JSON) (st : S * list Event)
  : (S * list Event) * option JSError :=
  let '(s', r) := onToken cb content (fst st) in
  ((s', snd st ++ [EvToken content]), r).

Definition call_onComplete (st : S * list Event)
  : (S * list Event) * option JSError :=
  let '(s', r) := onComplete cb (fst st) in
  ((s', snd st ++ [EvComplete]), r).

Definition call_onError (error : JSError) (st : S * list Event)
  : (S * list Event) * option JSError :=
  let '(s', r) := onError cb error (fst st) in
  ((s', snd st ++ [EvError error]), r).

(** The inner [try { ... } catch (e) { }]: whatever is thrown in it, by
    [JSON.parse], by the property reads or by [onToken], is dropped. *)
Definition handle_data (data : list N) (st : S * list Event)
  : S * list Event :=
  match JSON_parse data with
  | Throw _ => st
  | Normal parsed =>
      match delta_content parsed with
      | Throw _ => st
      | Normal (Some content) =>
          if truthy content then fst (call_onToken content st) else st
      | Normal None => st
      end
  end.

(** The loop over the complete lines of one read. *)
Fixpoint for_lines (lines : list (list N)) (st : S * list Event)
  : (S * list Event) * LoopExit :=
  match lines with
  | [] => (st, Continue)
  | line :: lines' =>
      if startsWith line (js "data: ") then
        let data := trim (drop 6 line) in
        if bool_decide (data = js "[DONE]") then
          let '(st', r) := call_onComplete st in
          (st', match r with None => Return | Some e => Raise e end)
        else for_lines lines' (handle_data data st)
      else for_lines lines' st
  end.

(** The [while (true)] loop and the [onComplete()] behind it: the
    completion of the [try] block from the first read on. *)
Fixpoint read_loop (values : list (list N)) (end_of_body : option JSError)
    (buffer : list N) (st : S * list Event)
  : (S * list Event) * completion unit :=
  match values with
  | [] =>
      match end_of_body with
      | Some e => (st, Throw e)
      | None =>
          let '(st', r) := call_onComplete st in
          (st', match r with None => Normal tt | Some e => Throw e end)
      end
  | value :: values' =>
      let buffer := buffer ++ value in
      let '(popped, lines) := pop (split buffer) in
      let buffer := default [] popped in
      match for_lines lines st with
      | (st', Continue) => read_loop values' end_of_body buffer st'
      | (st', Return) => (st', Normal tt)
      | (st', Raise e) => (st', Throw e)
      end
  end.

(** The [try] block of [streamCompletion]. *)
Definition try_block (prompt : list N) (st : S * list Event)
  : (S * list Event) * completion unit :=
  match fetch prompt with
  | FetchRejected e => (st, Throw e)
  | FetchResolved response =>
      if negb (ok response) then
        match text response with
        | Throw e => (st, Throw e)
        | Normal errorText =>
            (st, Throw (mkError (js "API Error: " ++ decimal (status response)
                                   ++ js " - " ++ errorText)))
        end
      else read_loop (chunks response) (ending response) [] st
  end.

(** [streamCompletion(prompt, onToken, onComplete, onError)] from the
    caller state [s]: the caller state afterwards, the log of the callbacks
    invoked, and the completion of the asynchronous function itself (it
    rejects only if [onError] throws). *)
Definition streamCompletion (prompt : list N) (s : S)
  : S * list Event * completion unit :=
  match try_block prompt (s, []) with
  | (st, Normal _) => (st, Normal tt)
  | (st, Throw error) =>
      let '(st', r) := call_onError error st in
      (st', match r with None => Normal tt | Some e => Throw e end)
  end.

End StreamCompletion.

(** The caller state after the callbacks of a log have run in order
    (exceptions they throw aside). *)
Fixpoint replay {S : Type} (cb : Callbacks S) (log : list Event) (s : S) : S :=
  match log with
  | [] => s
  | EvToken content :: log' => replay cb log' (fst (onToken cb content s))
  | EvComplete :: log' => replay cb log' (fst (onComplete cb s))
  | EvError e :: log' => replay cb log' (fst (onError cb e s))
  end.

(** [st'] is the instrumented state [st] after the callbacks of [evs]
    have been invoked. *)
Definition extends {S : Type} (cb : Callbacks S) (st st' : S * list Event)
    (evs : list Event) : Prop :=
  snd st' = snd st ++ evs /\ fst st' = replay cb evs (fst st).

(** The ways the [try] block can end: normally, behind an [onComplete]
    that returned; with an error of the transport, behind tokens only; or
    with an error thrown by [onComplete]. *)
Definition try_shape {S : Type} (cb : Callbacks S) (st st' : S * list Event)
    (r : completion unit) (toks : list JSON) : Prop :=
  match r with
  | Normal _ =>
      extends cb st st' (map EvToken toks ++ [EvComplete]) /\
      snd (onComplete cb (replay cb (map EvToken toks) (fst st))) = None
  | Throw e =>
      extends cb st st' (map EvToken toks) \/
      (extends cb st st' (map EvToken toks ++ [EvComplete]) /\
       snd (onComplete cb (replay cb (map EvToken toks) (fst st))) = Some e)
  end.


(** The sentinel test of the loop body. *)
Definition is_sentinel (line : list N) : bool :=
  startsWith line (js "data: ")
  && bool_decide (trim (drop 6 line) = js "[DONE]").

(** The complete lines the loop gets to see, over all reads, from a
    buffer: the text behind the last line feed waits for the next read. *)
Fixpoint complete_lines (values : list (list N)) (buffer : list N)
  : list (list N) :=
  match values with
  | [] => []
  | value :: values' =>
      let '(popped, lines) := pop (split (buffer ++ value)) in
      lines ++ complete_lines values' (default [] popped)
  end.

(** The content a line makes the client pass to [onToken], if any. *)
Definition line_token (JSON_parse : list N -> completion JSON)
    (line : list N) : option JSON :=
  if startsWith line (js "data: ") then
    match JSON_parse (trim (drop 6 line)) with
    | Normal parsed =>
        match delta_content parsed with
        | Normal (Some content) =>
            if truthy content then Some content else None
        | _ => None
        end
    | Throw _ => None
    end
  else None.

End Api.

(** ** app.js: the orchestrator

    The model keeps what [App] owns or reads: its own fields, the DOM nodes
    it caches (taken to exist, as [init] found them) and the tokenizer's
    token array.  A stage animator is awaited for its completion only, so
    it is an oracle that resolves or rejects; the network diagram is never
    awaited and touches nothing modelled here.  A run is followed from
    [process()] to its end with no other event handler in between. *)

Module App.
Import Api.

Inductive Layer := tokenization | embeddings | attention | ffn | output.

#[global] Instance Layer_eq_dec : EqDecision Layer.
Proof. solve_decision. Defined.

(** The [status] argument of [updateLayerStatus]; on the container it is
    the class [active], the class [completed] or neither. *)
Inductive Status := waiting | active | completed.

Inductive View := layers_view | network_view.

(** [elements.layers[layer]]: the container's status class and the text
    of the status node. *)
Record LayerEl := {
  container_class : Status;
  status_text : list N
}.

Record App := {
  isProcessing : bool;
  currentSpeed : float;
  currentView : View;
  input_value : list N;
  submitBtn_disabled : bool;
  responseOutput : list N;
  responseCursor_active : bool;
  layers : Layer -> LayerEl;
  tokenizer : Tokenizer.TokenizerVisualizer
}.

Definition set_isProcessing (b : bool) (a : App) : App :=
  {| isProcessing := b; currentSpeed := currentSpeed a;
     currentView := currentView a; input_value := input_value a;
     submitBtn_disabled := submitBtn_disabled a;
     responseOutput := responseOutput a;
     responseCursor_active := responseCursor_active a;
     layers := layers a; tokenizer := tokenizer a |}.

Definition set_submitBtn_disabled (b : bool) (a : App) : App :=
  {| isProcessing := isProcessing a; currentSpeed := currentSpeed a;
     currentView := currentView a; input_value := input_value a;
     submitBtn_disabled := b;
     responseOutput := responseOutput a;
     responseCursor_active := responseCursor_active a;
     layers := layers a; tokenizer := tokenizer a |}.

Definition set_responseOutput (t : list N) (a : App) : App :=
  {| isProcessing := isProcessing a; currentSpeed := currentSpeed a;
     currentView := currentView a; input_value := input_value a;
     submitBtn_disabled := submitBtn_disabled a;
     responseOutput := t;
     responseCursor_active := responseCursor_active a;
     layers := layers a; tokenizer := tokenizer a |}.

Definition set_responseCursor_active (b : bool) (a : App) : App :=
  {| isProcessing := isProcessing a; currentSpeed := currentSpeed a;
     currentView := currentView a; input_value := input_value a;
     submitBtn_disabled := submitBtn_disabled a;
     responseOutput := responseOutput a;
     responseCursor_active := b;
     layers := layers a; tokenizer := tokenizer a |}.

Definition set_layers (f : Layer -> LayerEl) (a : App) : App :=
  {| isProcessing := isProcessing a; currentSpeed := currentSpeed a;
     currentView := currentView a; input_value := input_value a;
     submitBtn_disabled := submitBtn_disabled a;
     responseOutput := responseOutput a;
     responseCursor_active := responseCursor_active a;
     layers := f; tokenizer := tokenizer a |}.

Definition set_tokenizer (tv : Tokenizer.TokenizerVisualizer) (a : App) : App :=
  {| isProcessing := isProcessing a; currentSpeed := currentSpeed a;
     currentView := currentView a; input_value := input_value a;
     submitBtn_disabled := submitBtn_disabled a;
     responseOutput := responseOutput a;
     responseCursor_active := responseCursor_active a;
     layers := layers a; tokenizer := tv |}.

Definition status_name (s : Status) : list N :=
  match s with
  | waiting => js "waiting"
  | active => js "active"
  | completed => js "completed"
  end.

(** [s.charAt(0).toUpperCase() + s.slice(1)], for ASCII. *)
Definition capitalize (s : list N) : list N :=
  match s with
  | c :: s' => (if (97 <=? c)%N && (c <=? 122)%N then c - 32 else c)%N :: s'
  | [] => []
  end.

(** [updateLayerStatus(layer, status, text)]; the layer names are the
    five that [init] caches, so the early return is never taken. *)
Definition updateLayerStatus (layer : Layer) (status : Status)
    (text : list N) (a : App) : App :=
  let label :=
    match text with
    | [] => capitalize (status_name status)
    | _ => text
    end in
  set_layers
    (fun l => if decide (l = layer)
              then {| container_class := status; status_text := label |}
              else layers a l) a.

(** [reset()]. *)
Definition reset (a : App) : App :=
  let a :=
    fold_left (fun a layer => updateLayerStatus layer waiting (js "Waiting") a)
      [tokenization; embeddings; attention; ffn; output] a in
  let a := set_tokenizer (Tokenizer.clear (tokenizer a)) a in
  let a := set_responseOutput [] a in
  let a := set_responseCursor_active false a in
  let a := set_submitBtn_disabled false a in
  set_isProcessing false a.

(** What an awaited promise does to the [try] block of [process]: it
    resolves, it rejects, or it never settles. *)
Inductive Outcome :=
| Done
| Failed (e : JSError)
| Pending.

(** A promise of a stage animator, once settled. *)
Inductive Settled :=
| Resolved
| Rejected (e : JSError).

(** The animators' promises of one run. *)
Record Animators := {
  tokenizer_animate : Settled;
  embeddings_animate : Settled;
  attention_animate : Settled;
  ffn_animate : Settled
}.

(** The state the callbacks of [runOutputGeneration] close over: the
    application, the two local variables, and the promise being built. *)
Record Run := {
  app : App;
  tokenCount : N;
  firstToken : bool;
  promise : option Settled
}.

(** [resolve()] and [reject(error)]: only the first call settles. *)
Definition settle (r : Settled) (run : Run) : Run :=
  match promise run with
  | Some _ => run
  | None =>
      {| app := app run; tokenCount := tokenCount run;
         firstToken := firstToken run; promise := Some r |}
  end.

Definition set_app (a : App) (run : Run) : Run :=
  {| app := a; tokenCount := tokenCount run; firstToken := firstToken run;
     promise := promise run |}.

(** The statements of the promise's executor that precede the call of
    the streaming client: the status, the cursor and the two locals. *)
Definition begin_output (a : App) : Run :=
  let a := updateLayerStatus output active (js "Generating") a in
  let a := set_responseCursor_active true a in
  {| app := a; tokenCount := 0; firstToken := true; promise := None |}.

(** The first animator to reject, in the order the stages await them. *)
Definition first_rejection (an : Animators) : option JSError :=
  match tokenizer_animate an, embeddings_animate an,
        attention_animate an, ffn_animate an with
  | Rejected e, _, _, _
  | Resolved, Rejected e, _, _
  | Resolved, Resolved, Rejected e, _
  | Resolved, Resolved, Resolved, Rejected e => Some e
  | Resolved, Resolved, Resolved, Resolved => None
  end.

Section Process.

Variable JSON_parse : list N -> completion JSON.
Variable fetch : list N -> FetchResult.
Variable animators : Animators.

(** String conversion of a token that is not a string (a number, a
    boolean, an array or an object). *)
Variable ToString_other : JSON -> list N.

Definition ToString (v : JSON) : list N :=
  match v with
  | JString s => s
  | _ => ToString_other v
  end.

Definition await (p : Settled) (a : App) : App * Outcome :=
  (a, match p with Resolved => Done | Rejected e => Failed e end).

(** Sequencing inside the [try] block: the next statement runs only if
    the one before completed. *)
Definition and_then (m1 m2 : App -> App * Outcome) (a : App)
  : App * Outcome :=
  match m1 a with
  | (a1, Done) => m2 a1
  | (a1, r) => (a1, r)
  end.

Definition token_label (n : N) : list N := decimal n ++ js " tokens".

(** [runTokenization(prompt)]; the trailing [delay] always resolves. *)
Definition runTokenization (prompt : list N) (a : App) : App * Outcome :=
  let a := updateLayerStatus tokenization active (js "Processing") a in
  let a := set_tokenizer (snd (Tokenizer.tokenize prompt (tokenizer a))) a in
  match tokenizer_animate animators with
  | Rejected e => (a, Failed e)
  | Resolved =>
      (updateLayerStatus tokenization completed
         (token_label
            (N.of_nat (length (Tokenizer.getTokens (tokenizer a))))) a,
       Done)
  end.

Definition runEmbeddings (a : App) : App * Outcome :=
  let a := updateLayerStatus embeddings active (js "Encoding") a in
  match embeddings_animate animators with
  | Rejected e => (a, Failed e)
  | Resolved => (updateLayerStatus embeddings completed (js "Encoded") a, Done)
  end.

Definition runAttention (a : App) : App * Outcome :=
  let a := updateLayerStatus attention active (js "Computing") a in
  match attention_animate animators with
  | Rejected e => (a, Failed e)
  | Resolved => (updateLayerStatus attention completed (js "Computed") a, Done)
  end.

Definition runFFN (a : App) : App * Outcome :=
  let a := updateLayerStatus ffn active (js "Processing") a in
  match ffn_animate animators with
  | Rejected e => (a, Failed e)
  | Resolved => (updateLayerStatus ffn completed (js "Processed") a, Done)
  end.

(** The [onToken] callback.  [OutputVisualizer.animate] is asynchronous
    and not awaited, so it cannot throw here; [token.trim()] can, when the
    token is not a string. *)
Definition on_token (token : JSON) (run : Run) : Run * option JSError :=
  let count := (tokenCount run + 1)%N in
  let a := set_responseOutput (responseOutput (app run) ++ ToString token)
             (app run) in
  let update (first : bool) : Run :=
    {| app := updateLayerStatus output active (token_label count) a;
       tokenCount := count; firstToken := first; promise := promise run |} in
  if firstToken run then
    match token with
    | JString _ => (update false, None)
    | _ =>
        ({| app := a; tokenCount := count; firstToken := false;
            promise := promise run |},
         Some (mkError (js "token.trim is not a function")))
    end
  else (update false, None).

(** The [onComplete] callback. *)
Definition on_complete (run : Run) : Run * option JSError :=
  let a := updateLayerStatus output completed (token_label (tokenCount run))
             (app run) in
  let a := set_responseCursor_active false a in
  (settle Resolved (set_app a run), None).

(** The [onError] callback. *)
Definition on_error (error : JSError) (run : Run) : Run * option JSError :=
  let a := updateLayerStatus output waiting (js "Error") (app run) in
  (settle (Rejected error) (set_app a run), None).

Definition callbacks : Callbacks Run :=
  {| onToken := on_token; onComplete := on_complete; onError := on_error |}.

(** [runOutputGeneration(prompt)]: the promise settles when a callback
    calls [resolve] or [reject], and stays pending otherwise. *)
Definition runOutputGeneration (prompt : list N) (a : App) : App * Outcome :=
  let run' :=
    fst (fst (streamCompletion JSON_parse fetch callbacks prompt
                (begin_output a))) in
  (app run',
   match promise run' with
   | Some Resolved => Done
   | Some (Rejected e) => Failed e
   | None => Pending
   end).

(** The statements of the [try] block, in order. *)
Definition run_stages (prompt : list N) : App -> App * Outcome :=
  and_then (runTokenization prompt)
    (and_then runEmbeddings
       (and_then runAttention
          (and_then runFFN (runOutputGeneration prompt)))).

(** The statements between the two guards and the [try]. *)
Definition start (a : App) : App :=
  let a := set_isProcessing true a in
  let a := set_submitBtn_disabled true a in
  let a := reset a in
  let a := set_submitBtn_disabled true a in
  set_isProcessing true a.

(** The [finally] block. *)
Definition finally (a : App) : App :=
  let a := set_isProcessing false a in
  let a := set_submitBtn_disabled false a in
  set_responseCursor_active false a.

(** [process()]: the state when the call is over, or, if an awaited
    promise never settles, the state it is left waiting in. *)
Definition process (a : App) : App :=
  if isProcessing a then a
  else
    match trim (input_value a) with
    | [] => a
    | prompt =>
        match run_stages prompt (start a) with
        | (a', Done) => finally a'
        | (a', Failed error) =>
            finally (set_responseOutput (js "Error: " ++ message error) a')
        | (a', Pending) => a'
        end
    end.

End Process.

(** The status the "output" layer is left with on a failed run: the
    waiting state, labelled "Waiting" or "Error". *)
Definition output_reverted (a : App) : Prop :=
  container_class (layers a output) = waiting /\
  (status_text (layers a output) = js "Waiting" \/
   status_text (layers a output) = js "Error").

(** A stage that leaves the "output" layer alone and never hangs. *)
Definition early_stage (m : App -> App * Outcome) : Prop :=
  forall a, layers (fst (m a)) output = layers a output /\ snd (m a) <> Pending.

(** What holds of the state and outcome of (a suffix of) the [try]
    block: it has settled, and if it failed the "output" layer shows a
    waiting or error label. *)
Definition settled_safely (r : App * Outcome) : Prop :=
  snd r <> Pending /\ forall e, snd r = Failed e -> output_reverted (fst r).

End App.

(** ** Scenarios: transports, callbacks and pages to run the model on *)

Module Scenarios.
Import Api App.

(** JSON text, written with an apostrophe for every double quote. *)
Definition quoted (s : string) : list N :=
  map (fun c => if (c =? 39)%N then 34%N else c) (js s).

Definition LF : list N := [10%N].

Definition payload_Hi : list N :=
  quoted "{'choices':[{'delta':{'content':'Hi'}}]}".

Definition parsed_Hi : JSON :=
  JObject [(js "choices",
            JArray [JObject [(js "delta",
                              JObject [(js "content", JString (js "Hi"))])]])].

(** A [JSON.parse] that knows this one payload and rejects the rest. *)
Definition parse_Hi (data : list N) : completion JSON :=
  if bool_decide (data = payload_Hi) then Normal parsed_Hi
  else Throw (mkError (js "Unexpected end of JSON input")).

(** Scenario C: one token, then the sentinel, in a single read. *)
Definition response_C : Response :=
  {| ok := true; status := 200; text := Normal [];
     chunks := [js "data: " ++ payload_Hi ++ LF ++ LF
                ++ js "data: [DONE]" ++ LF ++ LF];
     ending := None |}.

(** Scenario D: a non-success status. *)
Definition response_D : Response :=
  {| ok := false; status := 500; text := Normal (js "Internal Server Error");
     chunks := []; ending := None |}.

(** A body cut in the middle of a line by the reads, which ends with an
    unfinished sentinel and no line feed. *)
Definition response_no_sentinel : Response :=
  {| ok := true; status := 200; text := Normal [];
     chunks := [js "data: " ++ take 20 payload_Hi;
                drop 20 payload_Hi ++ LF ++ js "data: [DO"];
     ending := None |}.

(** A body whose third read fails. *)
Definition response_read_fails : Response :=
  {| ok := true; status := 200; text := Normal [];
     chunks := [js "data: " ++ payload_Hi ++ LF; LF];
     ending := Some (mkError (js "network error")) |}.

Definition respond (r : Response) (prompt : list N) : FetchResult :=
  FetchResolved r.

(** Callbacks without a state that return normally. *)
Definition quiet : Callbacks unit :=
  {| onToken := fun _ s => (s, None);
     onComplete := fun s => (s, None);
     onError := fun _ s => (s, None) |}.



(** The page before a submit, with a prompt typed in. *)
Definition page : App :=
  {| isProcessing := false; currentSpeed := 1; currentView := layers_view;
     input_value := js "  Hello, world! ";
     submitBtn_disabled := false; responseOutput := js "earlier answer";
     responseCursor_active := false;
     layers := fun _ => {| container_class := completed;
                           status_text := js "Computed" |};
     tokenizer := {| Tokenizer.tokens := [] |} |}.

Definition all_resolve : Animators :=
  {| tokenizer_animate := Resolved; embeddings_animate := Resolved;
     attention_animate := Resolved; ffn_animate := Resolved |}.

(** The attention stage rejects (its canvas is missing). *)
Definition attention_rejects : Animators :=
  {| tokenizer_animate := Resolved; embeddings_animate := Resolved;
     attention_animate :=
       Rejected (mkError (js "Cannot read properties of null"));
     ffn_animate := Resolved |}.

Definition no_other_tokens (v : JSON) : list N := js "[object Object]".

(** The log of a call of the client on a response. *)
Definition log_of (r : Response) (cb : Callbacks unit) : list Event :=
  snd (fst (streamCompletion parse_Hi (respond r) cb (js "Hello") tt)).

(** What the page shows after a run: the processing flag, the submit
    button's [disabled], the response text, and the "output" layer's
    status class and label. *)
Definition shown (a : App) : bool * bool * list N * Status * list N :=
  (isProcessing a, submitBtn_disabled a, responseOutput a,
   container_class (layers a output), status_text (layers a output)).

End Scenarios.

(** * Further definitions *)

(** ** The tokenizer: what is matched, and the elements of [animate] *)

Module TokenizerView.
Import Tokenizer.
(** A code unit that some alternative of the expression matches. *)
Definition isMatched (c : N) : bool := isWordOrApostrophe c || isPunctuation c.

(** The two shapes of a match: a non-empty run of the first class, or
    one code unit of the second. *)
Definition token_shape (t : list N) : Prop :=
  (t <> [] /\ forallb isWordOrApostrophe t = true) \/
  (exists c, t = [c] /\ isPunctuation c = true).

(** An element appended to the container by [animate]: its [special]
    class, its [data-color] attribute if it gets one, the text written
    into it and the index shown beside it. *)
Record TokenElement := {
  special : bool;
  data_color : option (list N);
  token_text : list N;
  token_index : nat
}.

(** The display texts of the two sentinels, in angle brackets U+27E8 and
    U+27E9. *)
Definition display_BOS : list N := [10216%N] ++ js "BOS" ++ [10217%N].
Definition display_EOS : list N := [10216%N] ++ js "EOS" ++ [10217%N].

(** [CONFIG.tokenColors[index % CONFIG.tokenColors.length]] as an
    attribute value: with an empty palette the index is NaN, the read is
    [undefined], and the attribute is the text "undefined". *)
Definition palette_color (c : Config.Config) (index : nat) : list N :=
  match Config.tokenColors c with
  | [] => js "undefined"
  | colors =>
      default (js "undefined") (colors !! (index mod length colors)%nat)
  end.

(** The body of the [forEach] of [animate], timers aside. *)
Definition token_element (c : Config.Config) (index : nat) (token : list N)
  : TokenElement :=
  let is_special := bool_decide (token = BOS) || bool_decide (token = EOS) in
  {| special := is_special;
     data_color := if is_special then None else Some (palette_color c index);
     token_text :=
       if bool_decide (token = BOS) then display_BOS
       else if bool_decide (token = EOS) then display_EOS
       else token;
     token_index := index |}.

(** The elements [animate()] builds, in order. *)
Definition animate_elements (c : Config.Config) (tv : TokenizerVisualizer)
  : list TokenElement :=
  imap (token_element c) (tokens tv).

(** The code units that start a tag or an entity in HTML text. *)
Definition isMarkup (ch : N) : bool :=
  (ch =? 60)%N || (ch =? 62)%N || (ch =? 38)%N.
End TokenizerView.

(** ** The embeddings: the hash as a polynomial, the values' range and
    the bars of [animate] *)

Module EmbeddingsView.
Import Embeddings.
(** The polynomial of a string in base 31, over the integers. *)
Definition polynomial31 (token : list N) : Z :=
  fold_left (fun h c => (31 * h + Z.of_N c)%Z) token 0%Z.

(** The bounds every generated value keeps. *)
Definition in_unit_range (v : float) : bool := (0.1 <=? v) && (v <? 1).

(** The value computed from a residue [r] of the division by 233280. *)
Definition value_of_residue (r : Z) : float :=
  0.1 + 0.9 * number_of_Z r / 233280.

(** A test [P] checked on the values of [fuel] consecutive residues from
    [r]. *)
Fixpoint residues_satisfy (P : float -> bool) (fuel : nat) (r : Z) : bool :=
  match fuel with
  | O => true
  | S fuel' => P (value_of_residue r) && residues_satisfy P fuel' (r + 1)
  end.

(** [Math.round(x)]: the integer nearest to [x], the larger one at a tie;
    NaN, the infinities and the zeros are returned as they are, and a
    result of zero keeps the sign of [x].  A finite [x] is [m * 2^e] with
    [m < 2^53], so for [e >= 0] it is an integer already and otherwise
    the result is below [2^53]. *)
Definition Math_round (x : float) : float :=
  match Prim2SF x with
  | S754_finite s m e =>
      if (0 <=? e)%Z then x
      else
        let v := if s then Z.neg m else Z.pos m in
        let n := Z.shiftr (2 * v + Z.shiftl 1 (- e)) (1 - e) in
        if (n =? 0)%Z then (if s then (-0)%float else 0%float)
        else if (n <? 0)%Z then (- number_of_Z (- n))%float
        else number_of_Z n
  | _ => x
  end.

(** [const height = Math.round(val * 36) + 4]. *)
Definition bar_height (val : float) : float := Math_round (val * 36) + 4.

(** [displayEmbeddings = this.embeddings.slice(0, attentionMaxTokens)]. *)
Definition displayEmbeddings (c : Config.Config) (ev : EmbeddingsVisualizer)
  : list Embedding :=
  take (Config.attentionMaxTokens (Config.visualization c)) (embeddings ev).

(** The bar heights [animate(tokens)] writes, one list for each element it
    appends: [this.clear(); this.generateEmbeddings(tokens)], then the
    [forEach] over [displayEmbeddings] (timers aside). *)
Definition animate_bars (toks : list (list N)) (c : Config.Config)
    (ev : EmbeddingsVisualizer) : list (list float) :=
  let ev := snd (generateEmbeddings toks c (clear ev)) in
  map (fun emb => map bar_height (values emb)) (displayEmbeddings c ev).

(** The integers 8, 9, ..., 40 as numbers. *)
Definition heights : list float :=
  [8; 9; 10; 11; 12; 13; 14; 15; 16; 17; 18; 19; 20; 21; 22; 23; 24; 25; 26;
   27; 28; 29; 30; 31; 32; 33; 34; 35; 36; 37; 38; 39; 40].

(** A number equal to one of [heights]. *)
Definition is_height (h : float) : bool :=
  existsb (fun n => h =? n) heights.
End EmbeddingsView.

(** ** The attention weights: bounds of an entry *)

Module AttentionBounds.
Import Attention.
(** The bounds of the entry for query [i] and key [j] before its row is
    normalized: in (0, 1] on and below the diagonal. *)
Definition raw_bounds (i j : nat) (w : R) : Prop :=
  (w <= 1)%R /\ ((j <= i)%nat -> (0 < w)%R).
End AttentionBounds.

(** ** The attention matrix: the reads of [animate] *)

Module AttentionView.
Import Attention.

(** The read of [drawCell] for the cell of rank [currentCell], with
    [n = this.tokens.length]:
    [i = Math.floor(currentCell / n)], [j = currentCell % n],
    [weight = this.attentionWeights[i][j]].  [None] is a read that finds
    no row (a [TypeError]) or no entry ([undefined] as the opacity). *)
Definition cell_weight (av : AttentionVisualizer) (currentCell : nat)
  : option R :=
  let n := length (tokens av) in
  match attentionWeights av !! (currentCell / n)%nat with
  | Some row => row !! (currentCell mod n)%nat
  | None => None
  end.

(** [totalCells = n * n]. *)
Definition totalCells (av : AttentionVisualizer) : nat :=
  (length (tokens av) * length (tokens av))%nat.

End AttentionView.


(** ** The streaming client: callbacks that never throw on a token, and
    the end of a completed call *)

Module ApiVariants.
Import Api.
(** Callbacks that differ from [cb] only in that [onToken] never throws:
    it has the same effect on the caller state. *)
Definition mute {S : Type} (cb : Callbacks S) : Callbacks S :=
  {| onToken := fun content s => (fst (onToken cb content s), None);
     onComplete := onComplete cb;
     onError := onError cb |}.

(** How a call ends once [onComplete] is reached behind the tokens
    [toks]: the log, and nothing after [onComplete] unless it throws. *)
Definition completes_after {S : Type} (cb : Callbacks S) (s : S)
    (toks : list JSON) (log : list Event) : Prop :=
  log = map EvToken toks ++ EvComplete ::
        match snd (onComplete cb (replay cb (map EvToken toks) s)) with
        | None => []
        | Some e => [EvError e]
        end.
End ApiVariants.

(** ** The run: the stages before the output stage *)

Module AppStages.
Import Api App.
Section D.
Variable animators : Animators.
(** The four animated stages, in order: the [try] block up to the call
    of [runOutputGeneration]. *)
Definition early_stages (prompt : list N) : App -> App * Outcome :=
  and_then (runTokenization animators prompt)
    (and_then (runEmbeddings animators)
       (and_then (runAttention animators) (runFFN animators))).
End D.
End AppStages.

(** ** The network diagram: [shuffle] and the targets of the particles *)

Module Network.

Section Shuffle.

Variable random : nat -> R.
Context {A : Type}.

(** [array[z]] for a number [z] that is an integer: [None] is
    [undefined], the read outside the array. *)
Definition at_index (array : list A) (z : Z) : option A :=
  if (z <? 0)%Z then None else array !! Z.to_nat z.

(** [[array[i], array[j]] = [array[j], array[i]]]: both reads come first,
    then [array[i]] and [array[j]] are written in that order.  [None]
    stands for a swap that reads outside the array (the source would then
    store [undefined] and may extend the array), which the loop never
    does while [Math.random] keeps its contract. *)
Definition swap (array : list A) (i : nat) (j : Z) : option (list A) :=
  match array !! i, at_index array j with
  | Some ai, Some aj => Some (<[Z.to_nat j := ai]> (<[i := aj]> array))
  | _, _ => None
  end.

(** The loop of [shuffle] from index [i] down to 1; [k] is the rank of
    the next call of [Math.random], [Int_part] is [Math.floor]. *)
Fixpoint shuffle_from (i k : nat) (array : list A) : option (list A * nat) :=
  match i with
  | O => Some (array, k)
  | S i' =>
      match swap array i (Int_part (random k * INR (i + 1))) with
      | Some array' => shuffle_from i' (S k) array'
      | None => None
      end
  end.

(** [shuffle(array)]: the loop starts at [array.length - 1] and does not
    run for an array shorter than two. *)
Definition shuffle (k : nat) (array : list A) : option (list A * nat) :=
  shuffle_from (length array - 1) k array.

End Shuffle.

(** The first statement group of [createParticles]: the indices of the
    next layer's nodes ([toLayer_length] of them) are shuffled and the
    first [Math.min(3, toLayer.length)] are the particles' targets. *)
Definition targetIndices (random : nat -> R) (k : nat) (toLayer_length : nat)
  : option (list nat * nat) :=
  match shuffle random k (seq 0 toLayer_length) with
  | Some (array, k') => Some (take (Nat.min 3 toLayer_length) array, k')
  | None => None
  end.

End Network.
(** * Theorems *)

(** ** Timing policy ([config.js]) *)

Section TimingPolicy.
Import Config.

Lemma nan_div (m : float) : nan / m = nan.
Proof. apply Prim2SF_inj. rewrite div_spec. reflexivity. Qed.

Lemma getTiming_unrecognized (key : list N) (c : Config) :
  timing c !! key = None -> getTiming key c = Normal nan.
Proof.
  intros Hk. unfold getTiming, timing_number. rewrite Hk.
  now rewrite nan_div.
Qed.

(** C2, as stated, fails: for a key that is no stage ("bogus") the
    lookup does not throw, it returns NaN. *)
Lemma C2_unrecognized_key_is_NaN :
  timing CONFIG !! js "bogus" = None /\
  getTiming (js "bogus") CONFIG = Normal nan /\
  (forall e, getTiming (js "bogus") CONFIG <> Throw e).
Proof.
  split; [vm_compute; reflexivity|].
  split; [apply getTiming_unrecognized; vm_compute; reflexivity|].
  intros e H. discriminate H.
Qed.

(** C2 (amended): the effective-duration lookup never throws; it
    returns [baseDuration[key] / multiplier] for a recognized stage key
    and NaN for every other key. *)
Theorem C2_getTiming_total (key : list N) (c : Config) :
  getTiming key c =
  Normal (match timing c !! key with
          | Some base => base / speedMultiplier c
          | None => nan
          end).
Proof.
  unfold getTiming, timing_number.
  destruct (timing c !! key) as [base|]; [reflexivity|].
  now rewrite nan_div.
Qed.

(** C3, as stated, fails: [setSpeed(0)] on the initial configuration
    stores 0, so the multiplier is neither unchanged nor positive. *)
Lemma C3_setSpeed_zero_is_stored :
  speedMultiplier (setSpeed 0 CONFIG) = 0 /\
  speedMultiplier (setSpeed 0 CONFIG) <> speedMultiplier CONFIG /\
  (0 <? speedMultiplier (setSpeed 0 CONFIG)) = false.
Proof.
  split; [reflexivity|]. split; [|reflexivity].
  intros H. apply (f_equal (fun x => 0 <? x)) in H.
  vm_compute in H. discriminate H.
Qed.

(** C3 (amended): [setSpeed(m)] stores [m] whatever its sign; after any
    sequence of calls whose arguments are all strictly positive, starting
    from a strictly positive multiplier (the default 1), the multiplier is
    strictly positive. *)
Theorem C3_setSpeed_stores_argument (ms : list float) (c : Config) :
  (forall m c', speedMultiplier (setSpeed m c') = m) /\
  ((0 <? speedMultiplier c) = true ->
   Forall (fun m => (0 <? m) = true) ms ->
   (0 <? speedMultiplier (setSpeeds ms c)) = true).
Proof.
  split; [reflexivity|].
  intros Hc Hms. revert c Hc.
  induction Hms as [|m ms Hm _ IH]; intros c Hc; [exact Hc|].
  cbn. apply IH. exact Hm.
Qed.

Lemma C3_setSpeed_stores_argument_witness :
  (0 <? speedMultiplier (setSpeeds [0.5; 2; 1] CONFIG)) = true.
Proof.
  apply (proj2 (C3_setSpeed_stores_argument [0.5; 2; 1] CONFIG)).
  - reflexivity.
  - repeat constructor.
Defined.

(** The attention stage's 1000 ms at the speeds the page offers. *)
Example getTiming_at_speeds :
  getTiming (js "attentionDraw") CONFIG = Normal 1000 /\
  getTiming (js "attentionDraw") (setSpeed 2 CONFIG) = Normal 500 /\
  getTiming (js "attentionDraw") (setSpeed 0.5 CONFIG) = Normal 2000 /\
  speed_multiplier_property (setSpeed 2 CONFIG) = Some 0.5.
Proof. repeat split; vm_compute; reflexivity. Qed.

(** C9, as stated, fails: at half speed, which the page's speed
    controls offer, the attention stage takes 2000 ms; after
    [setSpeed(2)] and [setSpeed(1)] it takes 1000 ms, not the 2000 ms
    there were before the two calls. *)
Lemma C9_round_trip_from_half_speed :
  let before := setSpeed 0.5 CONFIG in
  getTiming (js "attentionDraw") before = Normal 2000 /\
  getTiming (js "attentionDraw") (setSpeed 1 (setSpeed 2 before))
  = Normal 1000 /\
  getTiming (js "attentionDraw") (setSpeed 1 (setSpeed 2 before))
  <> getTiming (js "attentionDraw") before.
Proof.
  cbn zeta. split; [vm_compute; reflexivity|].
  split; [vm_compute; reflexivity|].
  intros H.
  apply (f_equal (fun r => match r with
                           | Normal v => v <? 1500
                           | Throw _ => false
                           end)) in H.
  vm_compute in H. discriminate H.
Qed.

(** C9 (amended): whatever the multiplier was, [setSpeed(2)] followed by
    [setSpeed(1)] leaves the multiplier at 1 and the table of base
    durations untouched, so for every key the effective duration is then
    the base duration divided by 1, the value at normal speed.  It is the
    value there was before the two calls when the multiplier was 1 before
    them, as in the initial configuration. *)
Theorem C9_setSpeed_round_trip (c : Config) (key : list N) :
  speedMultiplier (setSpeed 1 (setSpeed 2 c)) = 1 /\
  timing (setSpeed 1 (setSpeed 2 c)) = timing c /\
  getTiming key (setSpeed 1 (setSpeed 2 c))
  = Normal (match timing c !! key with
            | Some base => base / 1
            | None => nan
            end) /\
  getTiming key (setSpeed 1 (setSpeed 2 c)) = getTiming key (setSpeed 1 c) /\
  (speedMultiplier c = 1 ->
   getTiming key (setSpeed 1 (setSpeed 2 c)) = getTiming key c).
Proof.
  split; [reflexivity|]. split; [reflexivity|]. split; [|split].
  - unfold getTiming, timing_number. cbn [setSpeed timing speedMultiplier].
    destruct (timing c !! key) as [base|]; [reflexivity|].
    now rewrite nan_div.
  - reflexivity.
  - intros Hc. unfold getTiming, timing_number. cbn. now rewrite Hc.
Qed.

Lemma C9_setSpeed_round_trip_witness :
  getTiming (js "attentionDraw") (setSpeed 1 (setSpeed 2 CONFIG))
  = getTiming (js "attentionDraw") CONFIG.
Proof.
  apply (proj2 (proj2 (proj2 (proj2
           (C9_setSpeed_round_trip CONFIG (js "attentionDraw")))))).
  reflexivity.
Defined.

End TimingPolicy.

(** ** Tokenizer ([tokenizer.js]) *)

Section TokenizerFacts.
Import Tokenizer.

Lemma span_app (p : N -> bool) (s : list N) :
  fst (span p s) ++ snd (span p s) = s.
Proof.
  induction s as [|c s IH]; [reflexivity|].
  cbn. destruct (p c); [|reflexivity].
  destruct (span p s) as [run rest]. cbn in *. now rewrite IH.
Qed.

(** What is left after a successful attempt is shorter than the text. *)
Lemma exec_at_consumes (s m rest : list N) :
  exec_at s = Some (m, rest) -> (length rest < length s)%nat.
Proof.
  unfold exec_at. intros H.
  pose proof (span_app isWordOrApostrophe s) as Happ.
  destruct (span isWordOrApostrophe s) as [[|c run] rest'].
  - destruct s as [|c s']; [discriminate|].
    destruct (isPunctuation c); [|discriminate].
    injection H as _ <-. cbn. lia.
  - injection H as _ <-. rewrite <- Happ. cbn. rewrite length_app. lia.
Qed.

(** The fuel [length text] is enough: more fuel finds the same matches. *)
Lemma matches_fuel (fuel : nat) (s : list N) :
  (length s <= fuel)%nat -> matches fuel s = matches (length s) s.
Proof.
  revert s. induction fuel as [fuel IH] using lt_wf_ind. intros s Hs.
  destruct s as [|c s']; [now destruct fuel|].
  destruct fuel as [|fuel']; [cbn in Hs; lia|].
  cbn [matches length].
  destruct (exec_at (c :: s')) as [[m rest]|] eqn:He.
  - apply exec_at_consumes in He. cbn in He, Hs.
    rewrite (IH fuel') by lia. symmetry.
    rewrite (IH (length s')) by lia. reflexivity.
  - cbn in Hs. rewrite (IH fuel') by lia. reflexivity.
Qed.

(** Scenario A of the specification. *)
Example tokenize_hello_world :
  fst (tokenize (js "Hello, world!") {| tokens := [] |})
  = [js "<BOS>"; js "Hello"; js ","; js "world"; js "!"; js "<EOS>"].
Proof. vm_compute. reflexivity. Qed.

Example tokenize_apostrophe_dash :
  fst (tokenize ([8212%N] ++ js "don't ~ 'x'") {| tokens := [] |})
  = [js "<BOS>"; [8212%N]; js "don't"; js "'x'"; js "<EOS>"].
Proof. vm_compute. reflexivity. Qed.

(** C5: for every input string, the empty one included, [tokenize]
    returns (and stores) at least two tokens, the first of which is
    ["<BOS>"] and the last ["<EOS>"]. *)
Theorem C5_tokenize_sentinels (text : list N) (tv : TokenizerVisualizer) :
  let toks := fst (tokenize text tv) in
  (2 <= length toks)%nat /\
  head toks = Some (js "<BOS>") /\
  last toks = Some (js "<EOS>") /\
  getTokens (snd (tokenize text tv)) = toks.
Proof.
  cbn. repeat split.
  - rewrite length_app. cbn. lia.
  - rewrite last_cons, last_snoc. reflexivity.
Qed.

End TokenizerFacts.

(** ** Embeddings ([embeddings.js]) *)

Section EmbeddingsFacts.
Import Config Embeddings.

Lemma ToInt32_range (z : Z) : (- 2 ^ 31 <= ToInt32 z < 2 ^ 31)%Z.
Proof.
  unfold ToInt32.
  pose proof (Z.mod_pos_bound (z + 2 ^ 31) (2 ^ 32) ltac:(lia)). lia.
Qed.

Lemma hash_step_range (hash : Z) (char : N) :
  (- 2 ^ 31 <= hash_step hash char < 2 ^ 31)%Z.
Proof.
  unfold hash_step. rewrite Z.land_diag. apply ToInt32_range.
Qed.

(** The hash is a non-negative integer of at most 2^31. *)
Lemma hashToken_range (t : list N) : (0 <= hashToken t <= 2 ^ 31)%Z.
Proof.
  unfold hashToken.
  assert (H : (- 2 ^ 31 <= fold_left hash_step t 0 < 2 ^ 31)%Z).
  { induction t as [|c t IH] using rev_ind; [cbn; lia|].
    rewrite fold_left_app. cbn. apply hash_step_range. }
  lia.
Qed.

(** With the configured eight dimensions (and up to four hundred), the
    argument of [%] is below 2^53: the double arithmetic of the source is
    exact there, as the integer model assumes. *)
Lemma embedding_argument_exact (t : list N) (i : nat) :
  (i < 400)%nat ->
  (0 <= lcg_argument (hashToken t) i < 2 ^ 53)%Z.
Proof.
  intros Hi. pose proof (hashToken_range t) as Hh. unfold lcg_argument.
  split; [nia|].
  assert (hashToken t * (Z.of_nat i + 1) <= 2 ^ 31 * 400)%Z by nia.
  lia.
Qed.

Example hashToken_Hello : hashToken (js "Hello") = 69609650%Z.
Proof. vm_compute. reflexivity. Qed.

(** A token whose 32-bit hash wraps to a negative value before
    [Math.abs]. *)
Example hashToken_wraps :
  fold_left hash_step (js "tokenization") 0%Z = (-800681909)%Z /\
  hashToken (js "tokenization") = 800681909%Z.
Proof. split; vm_compute; reflexivity. Qed.

(** The embedding at a position is computed from the text at that
    position alone. *)
Lemma generateEmbeddings_lookup (toks : list (list N)) (c : Config)
    (ev : EmbeddingsVisualizer) (i : nat) (t : list N) :
  toks !! i = Some t ->
  fst (generateEmbeddings toks c ev) !! i =
  Some {| token := t; index := i;
          values := embedding_values (embeddingDimensions (visualization c))
                      (hashToken t) |}.
Proof.
  intros Ht. cbn. rewrite list_lookup_imap, Ht. reflexivity.
Qed.

(** C8: two tokens with the same text get the same hash and the same
    embedding vector, whatever the lists they stand in, their positions
    and the visualizers' earlier contents; the vector is a function of the
    text's hash (and the configured dimension count) and draws no random
    number. *)
Theorem C8_embedding_deterministic (c : Config)
    (toks1 toks2 : list (list N)) (ev1 ev2 : EmbeddingsVisualizer)
    (i j : nat) (t1 t2 : list N) :
  toks1 !! i = Some t1 -> toks2 !! j = Some t2 -> t1 = t2 ->
  hashToken t1 = hashToken t2 /\
  exists e1 e2,
    fst (generateEmbeddings toks1 c ev1) !! i = Some e1 /\
    fst (generateEmbeddings toks2 c ev2) !! j = Some e2 /\
    token e1 = t1 /\ token e2 = t2 /\
    values e1 = values e2 /\
    values e1 = embedding_values (embeddingDimensions (visualization c))
                  (hashToken t1).
Proof.
  intros H1 H2 <-. split; [reflexivity|].
  eexists _, _.
  split; [apply generateEmbeddings_lookup; exact H1|].
  split; [apply generateEmbeddings_lookup; exact H2|].
  cbn. repeat split.
Qed.

Lemma C8_embedding_deterministic_witness :
  hashToken (js "cat") = hashToken (js "cat") /\
  exists e1 e2,
    fst (generateEmbeddings [js "<BOS>"; js "cat"; js "<EOS>"] CONFIG
           {| embeddings := [] |}) !! 1%nat = Some e1 /\
    fst (generateEmbeddings [js "cat"] CONFIG
           (snd (generateEmbeddings [js "dog"] CONFIG
                   {| embeddings := [] |}))) !! 0%nat = Some e2 /\
    token e1 = js "cat" /\ token e2 = js "cat" /\
    values e1 = values e2 /\
    values e1 = embedding_values (embeddingDimensions (visualization CONFIG))
                  (hashToken (js "cat")).
Proof.
  apply (C8_embedding_deterministic CONFIG
           [js "<BOS>"; js "cat"; js "<EOS>"] [js "cat"]
           {| embeddings := [] |}
           (snd (generateEmbeddings [js "dog"] CONFIG {| embeddings := [] |}))
           1 0 (js "cat") (js "cat")); reflexivity.
Defined.

End EmbeddingsFacts.

(** ** Attention ([attention.js]) *)

Section AttentionFacts.
Import Config Attention.

Variable random : nat -> R.
Hypothesis random_range : forall k, (0 <= random k < 1)%R.

Lemma weight_raw (i j k : nat) : raw_entry i j (fst (weight random i j k)).
Proof.
  unfold weight, raw_entry. destruct (Nat.leb_spec j i) as [Hle|Hlt]; cbn.
  - pose proof (random_range k) as Hr.
    pose proof (exp_pos (- INR (i - j) * 0.3)) as He.
    split; [apply Rmin_glb; lra|]. split; [|lia].
    intros ->. rewrite Nat.sub_diag. cbn [INR].
    replace (- 0 * 0.3)%R with 0%R by lra. rewrite exp_0.
    apply Rmin_left. lra.
  - split; [lra|]. split; [lia|reflexivity].
Qed.

Lemma build_row_raw (i : nat) (cols : list nat) (k : nat) :
  Forall2 (raw_entry i) cols (fst (build_row random i cols k)).
Proof.
  revert k. induction cols as [|j cols IH]; intros k; cbn; [constructor|].
  pose proof (weight_raw i j k) as Hw.
  destruct (weight random i j k) as [w k1].
  specialize (IH k1). destruct (build_row random i cols k1) as [row k2].
  constructor; assumption.
Qed.

Lemma fold_left_Rplus_acc (row : list R) (a : R) :
  fold_left Rplus row a = (a + fold_left Rplus row 0)%R.
Proof.
  revert a. induction row as [|w row IH]; intros a; cbn; [lra|].
  rewrite (IH (a + w)%R), (IH (0 + w)%R). lra.
Qed.

Lemma row_sum_cons (w : R) (row : list R) :
  row_sum (w :: row) = (w + row_sum row)%R.
Proof.
  unfold row_sum. cbn. rewrite fold_left_Rplus_acc. lra.
Qed.

Lemma row_sum_nonneg (i : nat) (cols : list nat) (row : list R) :
  Forall2 (raw_entry i) cols row -> (0 <= row_sum row)%R.
Proof.
  induction 1 as [|j w cols row [Hw _] _ IH]; [unfold row_sum; cbn; lra|].
  rewrite row_sum_cons. lra.
Qed.

(** A row that holds its diagonal entry sums to at least 1. *)
Lemma row_sum_diagonal (i : nat) (cols : list nat) (row : list R) :
  Forall2 (raw_entry i) cols row -> i ∈ cols -> (1 <= row_sum row)%R.
Proof.
  induction 1 as [|j w cols row Hw Hrest IH]; intros Hin.
  - apply elem_of_nil in Hin. contradiction.
  - rewrite row_sum_cons. apply elem_of_cons in Hin as [<-|Hin].
    + destruct Hw as (_ & Hd & _). rewrite (Hd eq_refl).
      pose proof (row_sum_nonneg _ _ _ Hrest). lra.
    + destruct Hw as (Hw & _). specialize (IH Hin). lra.
Qed.

Lemma row_sum_scaled (s : R) (row : list R) :
  row_sum (map (fun w => (w / s)%R) row) = (row_sum row / s)%R.
Proof.
  induction row as [|w row IH]; [unfold row_sum; cbn; lra|].
  cbn [map]. rewrite !row_sum_cons, IH. lra.
Qed.

Lemma normalize_row_ok (n i k : nat) :
  (i < n)%nat ->
  row_ok n i (normalize (fst (build_row random i (seq 0 n) k))).
Proof.
  intros Hi. pose proof (build_row_raw i (seq 0 n) k) as Hraw.
  set (row := fst (build_row random i (seq 0 n) k)) in *.
  assert (Hsum : (1 <= row_sum row)%R).
  { apply (row_sum_diagonal i (seq 0 n)); [exact Hraw|].
    apply elem_of_seq. lia. }
  unfold row_ok, normalize. split; [|split].
  - rewrite length_map, <- (Forall2_length _ _ _ Hraw). apply length_seq.
  - intros j Hij Hjn. rewrite list_lookup_fmap.
    destruct (Forall2_lookup_l _ _ _ j j Hraw) as (w & Hw & Hent).
    { apply lookup_seq. lia. }
    rewrite Hw. cbn. destruct Hent as (_ & _ & Hz).
    rewrite (Hz Hij). f_equal. unfold Rdiv. lra.
  - rewrite row_sum_scaled. field. lra.
Qed.

Lemma build_rows_ok (n : nat) (rows : list nat) (k : nat) :
  Forall (fun i => (i < n)%nat) rows ->
  Forall2 (row_ok n) rows (fst (build_rows random n rows k)).
Proof.
  revert k. induction rows as [|i rows IH]; intros k Hrows; cbn;
    [constructor|].
  apply Forall_cons in Hrows as [Hi Hrows].
  pose proof (normalize_row_ok n i k Hi) as Hrow.
  destruct (build_row random i (seq 0 n) k) as [row k1].
  specialize (IH k1 Hrows). destruct (build_rows random n rows k1) as [ws k2].
  constructor; assumption.
Qed.

(** C6: with every draw of [Math.random] in [0, 1), the matrix has
    [n = min(token count, attentionMaxTokens)] rows of [n] entries, every
    entry above the diagonal is 0, and the entries of every row sum to 1
    (exactly, over the reals). *)
Theorem C6_attention_causal_normalized (toks : list (list N)) (c : Config)
    (k : nat) (av : AttentionVisualizer) :
  let n := Nat.min (length toks) (attentionMaxTokens (visualization c)) in
  let ws := fst (fst (generateAttentionWeights random toks c k av)) in
  length ws = n /\
  attentionWeights (snd (fst (generateAttentionWeights random toks c k av)))
    = ws /\
  forall i, (i < n)%nat ->
    exists row, ws !! i = Some row /\
      length row = n /\
      (forall j, (i < j)%nat -> (j < n)%nat -> row !! j = Some 0%R) /\
      row_sum row = 1%R.
Proof.
  intros n ws.
  assert (Hok : Forall2 (row_ok n) (seq 0 n) ws).
  { subst ws. unfold generateAttentionWeights. fold n.
    pose proof (build_rows_ok n (seq 0 n) k) as H.
    destruct (build_rows random n (seq 0 n) k) as [rows k']. cbn in *.
    apply H. apply Forall_forall. intros i Hi.
    apply elem_of_seq in Hi. lia. }
  split; [|split].
  - rewrite <- (Forall2_length _ _ _ Hok). apply length_seq.
  - subst ws. unfold generateAttentionWeights. fold n.
    destruct (build_rows random n (seq 0 n) k) as [rows k']. reflexivity.
  - intros i Hi.
    destruct (Forall2_lookup_l _ _ _ i i Hok) as (row & Hrow & Hprop).
    { apply lookup_seq. lia. }
    exists row. split; [exact Hrow|exact Hprop].
Qed.

End AttentionFacts.

(** ** Output distribution ([output.js]) *)

Section OutputFacts.
Import Config Output.

Variable random : nat -> float.

(** Sorting rearranges the rows and nothing else. *)
Lemma insert_sorted_Permutation (x : Entry) (l : list Entry) :
  insert_sorted x l ≡ₚ x :: l.
Proof.
  induction l as [|y l IH]; cbn [insert_sorted]; [reflexivity|].
  destruct (0 <? compareFn y x); [reflexivity|].
  rewrite IH. apply Permutation_swap.
Qed.

Lemma sort_Permutation (l : list Entry) : sort l ≡ₚ l.
Proof.
  unfold sort.
  assert (H : forall acc, fold_left (fun s x => insert_sorted x s) l acc
                          ≡ₚ acc ++ l).
  { induction l as [|x l IH]; intros acc; cbn.
    - now rewrite app_nil_r.
    - rewrite IH, insert_sorted_Permutation. cbn [app].
      apply Permutation_middle. }
  apply H.
Qed.

Lemma filter_none {A : Type} (P : A -> Prop) `{forall x, Decision (P x)}
    (l : list A) :
  Forall (fun x => ~ P x) l -> filter P l = [].
Proof.
  induction 1 as [|x l Hx _ IH]; [reflexivity|].
  rewrite filter_cons_False by exact Hx. exact IH.
Qed.

(** The rows pushed by the loop are unselected and never carry the
    selected token's text. *)
Lemma others_not_selected (sel : list N) (n : nat) (remaining : float)
    (voc : list (list N)) :
  Forall (fun e => selected e <> true /\ token e <> sel)
    (imap (fun i t => {| token := t;
                         probability := remaining * pow_half (i + 1);
                         selected := false |})
          (take n (filter (fun t => t <> sel) voc))).
Proof.
  apply Forall_forall. intros e He.
  apply elem_of_lookup_imap_1 in He as (i & t & -> & Ht).
  cbn. split; [discriminate|].
  apply list_elem_of_lookup_2, elem_of_take in Ht as (j & Ht & _).
  apply list_elem_of_lookup_2, list_elem_of_filter in Ht. tauto.
Qed.

Lemma candidates_overwrites_first_slot (sel : list N) :
  sel <> [] -> sel ∉ vocabulary -> candidates sel !! 0%nat = Some sel.
Proof.
  intros Hne Hnot. unfold candidates.
  destruct sel as [|ch sel]; [contradiction|]. cbn [truthy andb].
  rewrite bool_decide_eq_false_2 by exact Hnot. reflexivity.
Qed.

(** C7: for a non-empty [selectedToken], exactly one returned row is
    flagged selected, its text is [selectedToken], and it is the only row
    with that text; when the token is not in the fixed vocabulary it has
    overwritten the vocabulary's first slot. *)
Theorem C7_distribution_selected_once (selectedToken : list N)
    (c : Config) (k : nat) (ov : OutputVisualizer) :
  selectedToken <> [] ->
  let probs :=
    fst (fst (generateDistribution random selectedToken c k ov)) in
  (exists e,
     filter (fun x => selected x = true) probs = [e] /\
     token e = selectedToken /\
     filter (fun x => token x = selectedToken) probs = [e]) /\
  currentTokens (snd (fst (generateDistribution random selectedToken c k ov)))
    = probs /\
  (selectedToken ∉ vocabulary ->
   candidates selectedToken !! 0%nat = Some selectedToken).
Proof.
  intros Hne probs. split; [|split].
  - subst probs. unfold generateDistribution.
    destruct selectedToken as [|ch sel]; [contradiction|]. cbn [truthy fst].
    set (tok := ch :: sel).
    set (e := {| token := tok; probability := 0.3 + random k * 0.3;
                 selected := true |}).
    set (others := imap _ _).
    assert (Hothers : Forall (fun x => selected x <> true /\ token x <> tok)
                        others) by apply others_not_selected.
    exists e. split; [|split; [reflexivity|]].
    + apply Permutation_singleton_r.
      rewrite sort_Permutation. cbn [app].
      rewrite filter_cons_True by reflexivity.
      rewrite filter_none; [reflexivity|].
      eapply Forall_impl; [exact Hothers|]. cbn. tauto.
    + apply Permutation_singleton_r.
      rewrite sort_Permutation. cbn [app].
      rewrite filter_cons_True by reflexivity.
      rewrite filter_none; [reflexivity|].
      eapply Forall_impl; [exact Hothers|]. cbn. tauto.
  - subst probs. unfold generateDistribution.
    destruct (truthy selectedToken); reflexivity.
  - intros Hnot. now apply candidates_overwrites_first_slot.
Qed.

End OutputFacts.

(** ** Streaming client ([api.js]) *)

Section StreamFacts.
Import Api.

Variable JSON_parse : list N -> completion JSON.
Variable fetch : list N -> FetchResult.
Context {S : Type}.
Variable cb : Callbacks S.

Local Abbreviation extends := (Api.extends cb).
Local Abbreviation try_shape := (Api.try_shape cb).

Lemma replay_app (l1 l2 : list Event) (s : S) :
  replay cb (l1 ++ l2) s = replay cb l2 (replay cb l1 s).
Proof.
  revert s. induction l1 as [|ev l1 IH]; intros s; [reflexivity|].
  destruct ev; cbn; apply IH.
Qed.

Lemma extends_refl (st : S * list Event) : extends st st [].
Proof. split; [now rewrite app_nil_r|reflexivity]. Qed.

Lemma extends_trans (st1 st2 st3 : S * list Event) (l1 l2 : list Event) :
  extends st1 st2 l1 -> extends st2 st3 l2 -> extends st1 st3 (l1 ++ l2).
Proof.
  intros [H1 H1'] [H2 H2']. split.
  - now rewrite H2, H1, app_assoc.
  - now rewrite replay_app, <- H1'.
Qed.

Lemma call_onToken_extends (content : JSON) (st : S * list Event) :
  extends st (fst (call_onToken cb content st)) [EvToken content].
Proof.
  unfold call_onToken. destruct (onToken cb content (fst st)) as [s' r] eqn:E.
  split; cbn; [reflexivity|now rewrite E].
Qed.

Lemma call_onComplete_extends (st : S * list Event) :
  extends st (fst (call_onComplete cb st)) [EvComplete] /\
  snd (call_onComplete cb st) = snd (onComplete cb (fst st)).
Proof.
  unfold call_onComplete. destruct (onComplete cb (fst st)) as [s' r] eqn:E.
  repeat split; cbn; now rewrite ?E.
Qed.

Lemma call_onError_extends (e : JSError) (st : S * list Event) :
  extends st (fst (call_onError cb e st)) [EvError e].
Proof.
  unfold call_onError. destruct (onError cb e (fst st)) as [s' r] eqn:E.
  split; cbn; [reflexivity|now rewrite E].
Qed.

(** A data line invokes [onToken] once with [line_token]'s content, or
    not at all. *)
Lemma handle_data_extends (line : list N) (st : S * list Event) :
  startsWith line (js "data: ") = true ->
  extends st (handle_data JSON_parse cb (trim (drop 6 line)) st)
    (map EvToken (option_list (line_token JSON_parse line))).
Proof.
  intros Hp. unfold handle_data, line_token. rewrite Hp.
  destruct (JSON_parse (trim (drop 6 line))) as [parsed|];
    [|apply extends_refl].
  destruct (delta_content parsed) as [[content|]|]; try apply extends_refl.
  destruct (truthy content); [|apply extends_refl].
  apply call_onToken_extends.
Qed.

Lemma omap_cons_option_list {A B : Type} (f : A -> option B) (x : A)
    (l : list A) :
  omap f (x :: l) = option_list (f x) ++ omap f l.
Proof. cbn. destruct (f x); reflexivity. Qed.

Lemma line_token_no_prefix (line : list N) :
  startsWith line (js "data: ") = false -> line_token JSON_parse line = None.
Proof. intros Hp. unfold line_token. now rewrite Hp. Qed.

(** The loop over the lines of one read: tokens only, and, if it leaves
    the function, one [onComplete] behind them. *)
Lemma for_lines_extends (lines : list (list N)) (st : S * list Event) :
  exists toks,
    match snd (for_lines JSON_parse cb lines st) with
    | Continue =>
        extends st (fst (for_lines JSON_parse cb lines st)) (map EvToken toks)
        /\ toks = omap (line_token JSON_parse) lines
        /\ Forall (fun l => is_sentinel l = false) lines
    | Return =>
        extends st (fst (for_lines JSON_parse cb lines st))
          (map EvToken toks ++ [EvComplete])
        /\ snd (onComplete cb (replay cb (map EvToken toks) (fst st))) = None
    | Raise e =>
        extends st (fst (for_lines JSON_parse cb lines st))
          (map EvToken toks ++ [EvComplete])
        /\ snd (onComplete cb (replay cb (map EvToken toks) (fst st))) = Some e
    end.
Proof.
  revert st. induction lines as [|line lines IH]; intros st.
  - exists []. cbn. split; [apply extends_refl|]. split; [reflexivity|constructor].
  - cbn [for_lines].
    destruct (startsWith line (js "data: ")) eqn:Hp.
    + destruct (bool_decide (trim (drop 6 line) = js "[DONE]")) eqn:Hd.
      * exists []. destruct (call_onComplete_extends st) as [Hext Hr].
        destruct (call_onComplete cb st) as [st' r]. cbn in Hext, Hr. cbn.
        destruct r as [e|]; cbn; (split; [exact Hext|now symmetry]).
      * pose proof (handle_data_extends line st Hp) as Hh.
        destruct (IH (handle_data JSON_parse cb (trim (drop 6 line)) st))
          as [toks IHt].
        assert (Hs : is_sentinel line = false)
          by (unfold is_sentinel; now rewrite Hp, Hd).
        exists (option_list (line_token JSON_parse line) ++ toks).
        rewrite map_app.
        destruct (snd (for_lines JSON_parse cb lines _)) as [| |e].
        -- destruct IHt as (He & -> & Hf). split; [|split].
           ++ eapply extends_trans; eassumption.
           ++ symmetry. apply omap_cons_option_list.
           ++ now constructor.
        -- destruct IHt as (He & Hc). rewrite <- app_assoc. split.
           ++ eapply extends_trans; eassumption.
           ++ rewrite replay_app. now rewrite <- (proj2 Hh).
        -- destruct IHt as (He & Hc). rewrite <- app_assoc. split.
           ++ eapply extends_trans; eassumption.
           ++ rewrite replay_app. now rewrite <- (proj2 Hh).
    + destruct (IH st) as [toks IHt]. exists toks.
      assert (Hs : is_sentinel line = false)
        by (unfold is_sentinel; now rewrite Hp).
      destruct (snd (for_lines JSON_parse cb lines st)) as [| |e];
        [|exact IHt|exact IHt].
      destruct IHt as (He & -> & Hf). split; [exact He|]. split.
      * rewrite omap_cons_option_list.
        now rewrite line_token_no_prefix.
      * now constructor.
Qed.

Lemma for_lines_no_sentinel (lines : list (list N)) (st : S * list Event) :
  Forall (fun l => is_sentinel l = false) lines ->
  snd (for_lines JSON_parse cb lines st) = Continue.
Proof.
  intros Hl. revert st. induction Hl as [|line lines Hs _ IH]; intros st;
    [reflexivity|].
  cbn [for_lines]. unfold is_sentinel in Hs.
  destruct (startsWith line (js "data: ")); [|apply IH].
  cbn [andb] in Hs. rewrite Hs. apply IH.
Qed.

Lemma read_loop_shape (values : list (list N)) (end_of_body : option JSError)
    (buffer : list N) (st : S * list Event) :
  exists toks,
    try_shape st
      (fst (read_loop JSON_parse cb values end_of_body buffer st))
      (snd (read_loop JSON_parse cb values end_of_body buffer st)) toks.
Proof.
  revert buffer st. induction values as [|value values IH]; intros buffer st.
  - exists []. cbn [read_loop]. destruct end_of_body as [e|].
    + left. apply extends_refl.
    + destruct (call_onComplete_extends st) as [Hext Hr].
      destruct (call_onComplete cb st) as [st' r]. cbn in Hext, Hr.
      destruct r as [e|]; cbn; [right|]; (split; [exact Hext|now symmetry]).
  - cbn [read_loop].
    destruct (pop (split (buffer ++ value))) as [popped lines].
    destruct (for_lines_extends lines st) as [toks Hfor].
    destruct (for_lines JSON_parse cb lines st) as [st1 ex].
    cbn [fst snd] in Hfor. destruct ex as [| |e].
    + destruct Hfor as (Hext & _ & _).
      destruct (IH (default [] popped) st1) as [toks' Hrest].
      exists (toks ++ toks'). unfold try_shape in *. rewrite map_app.
      destruct (snd (read_loop JSON_parse cb values end_of_body _ st1))
        as [u|e].
      * destruct Hrest as (He & Hc). rewrite <- app_assoc. split.
        -- eapply extends_trans; eassumption.
        -- rewrite replay_app. now rewrite <- (proj2 Hext).
      * destruct Hrest as [He|(He & Hc)]; [left|right].
        -- eapply extends_trans; eassumption.
        -- rewrite <- app_assoc. split.
           ++ eapply extends_trans; eassumption.
           ++ rewrite replay_app. now rewrite <- (proj2 Hext).
    + exists toks. exact Hfor.
    + exists toks. right. exact Hfor.
Qed.

Lemma try_block_shape (prompt : list N) (st : S * list Event) :
  exists toks,
    try_shape st (fst (try_block JSON_parse fetch cb prompt st))
      (snd (try_block JSON_parse fetch cb prompt st)) toks.
Proof.
  unfold try_block. destruct (fetch prompt) as [e|response].
  - exists []. left. apply extends_refl.
  - destruct (ok response); cbn [negb]; [apply read_loop_shape|].
    exists []. destruct (text response); left; apply extends_refl.
Qed.

(** The log of a call: tokens, then [onComplete] alone, [onError] alone,
    or [onComplete] followed by [onError] with the error that [onComplete]
    threw; and the caller state is the one the logged callbacks leave. *)
Lemma streamCompletion_log (prompt : list N) (s : S) :
  let log := snd (fst (streamCompletion JSON_parse fetch cb prompt s)) in
  fst (fst (streamCompletion JSON_parse fetch cb prompt s)) = replay cb log s
  /\ exists toks,
       (log = map EvToken toks ++ [EvComplete] /\
        snd (onComplete cb (replay cb (map EvToken toks) s)) = None) \/
       (exists e, log = map EvToken toks ++ [EvError e]) \/
       (exists e, log = map EvToken toks ++ [EvComplete; EvError e] /\
        snd (onComplete cb (replay cb (map EvToken toks) s)) = Some e).
Proof.
  unfold streamCompletion.
  destruct (try_block_shape prompt (s, [])) as [toks Hshape].
  destruct (try_block JSON_parse fetch cb prompt (s, [])) as [st r].
  cbn [fst snd] in Hshape. destruct r as [u|e]; cbn [try_shape] in Hshape.
  - destruct Hshape as ((Hlog & Hst) & Hc). cbn in Hlog, Hst. cbn.
    split; [now rewrite Hlog|]. exists toks. left. now rewrite Hlog.
  - pose proof (call_onError_extends e st) as (Hlog' & Hst').
    destruct (call_onError cb e st) as [st' r']. cbn [fst snd] in *.
    destruct Hshape as [(Hlog & Hst)|((Hlog & Hst) & Hc)];
      cbn in Hlog, Hst; rewrite Hlog in Hlog'; rewrite Hlog', Hst', Hst.
    + split; [symmetry; apply replay_app|].
      exists toks. right. left. now exists e.
    + split; [symmetry; apply replay_app|].
      exists toks. right. right. exists e. now rewrite <- app_assoc.
Qed.



(** The reads of a body without a sentinel line all continue; the loop
    ends at the end of the body with [onComplete]. *)
Lemma read_loop_no_sentinel (values : list (list N)) (buffer : list N)
    (st : S * list Event) :
  Forall (fun l => is_sentinel l = false) (complete_lines values buffer) ->
  exists st1,
    extends st st1
      (map EvToken (omap (line_token JSON_parse)
                      (complete_lines values buffer))) /\
    read_loop JSON_parse cb values None buffer st =
    (fst (call_onComplete cb st1),
     match snd (call_onComplete cb st1) with
     | None => Normal tt
     | Some e => Throw e
     end).
Proof.
  revert buffer st. induction values as [|value values IH];
    intros buffer st Hns.
  - exists st. split; [apply extends_refl|]. cbn [read_loop].
    now destruct (call_onComplete cb st).
  - cbn [read_loop complete_lines] in *.
    destruct (pop (split (buffer ++ value))) as [popped lines].
    apply Forall_app in Hns as [Hlines Hrest].
    pose proof (for_lines_no_sentinel lines st Hlines) as Hcont.
    destruct (for_lines_extends lines st) as [toks Hfor].
    destruct (for_lines JSON_parse cb lines st) as [st1 ex].
    cbn [fst snd] in *. subst ex. destruct Hfor as (Hext & -> & _).
    destruct (IH (default [] popped) st1 Hrest) as (st2 & Hext2 & Heq).
    exists st2. split; [|exact Heq].
    rewrite omap_app, map_app. eapply extends_trans; eassumption.
Qed.

(** C10: when the request succeeds and the body ends without a read
    error and without a sentinel line among its complete lines,
    [onComplete] is invoked exactly once, after the [onToken] calls for the
    lines received; nothing follows it unless [onComplete] itself throws,
    in which case [onError] gets what it threw. *)
Theorem C10_complete_without_sentinel (prompt : list N) (s : S)
    (response : Response) :
  fetch prompt = FetchResolved response ->
  ok response = true ->
  ending response = None ->
  Forall (fun l => is_sentinel l = false)
    (complete_lines (chunks response) []) ->
  let log := snd (fst (streamCompletion JSON_parse fetch cb prompt s)) in
  let toks :=
    omap (line_token JSON_parse) (complete_lines (chunks response) []) in
  log = map EvToken toks ++ EvComplete ::
        match snd (onComplete cb (replay cb (map EvToken toks) s)) with
        | None => []
        | Some e => [EvError e]
        end /\
  length (List.filter (fun ev => match ev with EvComplete => true
                                             | _ => false end) log) = 1%nat.
Proof.
  intros Hfetch Hok Hend Hns log toks.
  assert (Hlog : log = map EvToken toks ++ EvComplete ::
            match snd (onComplete cb (replay cb (map EvToken toks) s)) with
            | None => []
            | Some e => [EvError e]
            end).
  { subst log. unfold streamCompletion, try_block.
    rewrite Hfetch, Hok, Hend. cbn [negb].
    destruct (read_loop_no_sentinel (chunks response) [] (s, []) Hns)
      as (st1 & (Hlog1 & Hst1) & ->).
    fold toks in Hlog1, Hst1. cbn in Hlog1, Hst1.
    destruct (call_onComplete_extends st1) as ((Hlog2 & _) & Hr).
    rewrite Hst1 in Hr.
    destruct (call_onComplete cb st1) as [st2 r]. cbn [fst snd] in *.
    rewrite <- Hr. destruct r as [e|].
    - pose proof (call_onError_extends e st2) as (Hlog3 & _).
      destruct (call_onError cb e st2) as [st3 r3]. cbn [fst snd] in *.
      rewrite Hlog3, Hlog2, Hlog1. now rewrite <- app_assoc.
    - cbn. now rewrite Hlog2, Hlog1. }
  split; [exact Hlog|]. rewrite Hlog, List.filter_app.
  assert (Ht : List.filter (fun ev => match ev with EvComplete => true
                                               | _ => false end)
                 (map EvToken toks) = []).
  { clear. induction toks as [|t toks' IH]; [reflexivity|exact IH]. }
  rewrite Ht. cbn.
  now destruct (snd (onComplete cb (replay cb (map EvToken toks) s))).
Qed.

End StreamFacts.

(** ** Orchestrator ([app.js]) *)

Section AppFacts.
Import Api App.

Variable JSON_parse : list N -> completion JSON.
Variable fetch : list N -> FetchResult.
Variable animators : Animators.
Variable ToString_other : JSON -> list N.

Local Abbreviation cbs := (callbacks ToString_other).

Lemma layers_updateLayerStatus_other (layer l : Layer) (s : Status)
    (t : list N) (a : App) :
  l <> layer -> layers (updateLayerStatus layer s t a) l = layers a l.
Proof.
  intros Hne. unfold updateLayerStatus. cbn.
  destruct (decide (l = layer)); [contradiction|reflexivity].
Qed.

Lemma on_token_promise (token : JSON) (run : Run) :
  promise (fst (on_token ToString_other token run)) = promise run.
Proof.
  unfold on_token. destruct (firstToken run); [|reflexivity].
  destruct token; reflexivity.
Qed.

(** Tokens never settle the promise. *)
Lemma replay_tokens_promise (toks : list JSON) (run : Run) :
  promise (replay cbs (map EvToken toks) run) = promise run.
Proof.
  revert run. induction toks as [|t toks IH]; intros run; [reflexivity|].
  cbn. rewrite IH. apply on_token_promise.
Qed.

(** The output stage always settles; when it fails, [onError] has just
    relabelled the "output" layer. *)
Lemma runOutputGeneration_settles (prompt : list N) (a : App) :
  let r := runOutputGeneration JSON_parse fetch ToString_other prompt a in
  snd r = Done \/
  exists e, snd r = Failed e /\
    layers (fst r) output
    = {| container_class := waiting; status_text := js "Error" |}.
Proof.
  unfold runOutputGeneration.
  destruct (streamCompletion_log JSON_parse fetch cbs prompt (begin_output a))
    as (Hst & toks & Hlog).
  cbn zeta in Hst, Hlog. rewrite Hst.
  pose proof (replay_tokens_promise toks (begin_output a)) as Hp.
  destruct Hlog as [(-> & _)|[(e & ->)|(e & _ & Hthrow)]].
  - left. rewrite replay_app. cbn. unfold settle. cbn. now rewrite Hp.
  - right. exists e. rewrite replay_app. cbn. unfold settle. cbn.
    rewrite Hp. cbn. split; reflexivity.
  - discriminate Hthrow.
Qed.

(** The output stage fails with [e] exactly when the streaming client
    has invoked [onError(e)]. *)
Lemma runOutputGeneration_fails_iff (prompt : list N) (a : App)
    (e : JSError) :
  snd (runOutputGeneration JSON_parse fetch ToString_other prompt a)
  = Failed e <->
  EvError e ∈
    snd (fst (streamCompletion JSON_parse fetch cbs prompt (begin_output a))).
Proof.
  unfold runOutputGeneration.
  destruct (streamCompletion_log JSON_parse fetch cbs prompt (begin_output a))
    as (Hst & toks & Hlog).
  cbn zeta in Hst, Hlog. rewrite Hst. cbn [snd].
  pose proof (replay_tokens_promise toks (begin_output a)) as Hp.
  assert (Htok : EvError e ∉ map EvToken toks).
  { intros Hin. apply list_elem_of_fmap in Hin as (t & Heq & _).
    discriminate Heq. }
  destruct Hlog as [(-> & _)|[(e' & ->)|(e' & _ & Hthrow)]].
  - rewrite replay_app. cbn. unfold settle. cbn. rewrite Hp. cbn.
    split; [discriminate|]. intros Hin.
    apply elem_of_app in Hin as [Hin|Hin]; [contradiction|].
    apply list_elem_of_singleton in Hin. discriminate Hin.
  - rewrite replay_app. cbn. unfold settle. cbn. rewrite Hp. cbn. split.
    + intros [= ->]. apply elem_of_app. right. now apply list_elem_of_singleton.
    + intros Hin. apply elem_of_app in Hin as [Hin|Hin]; [contradiction|].
      apply list_elem_of_singleton in Hin. now injection Hin as ->.
  - discriminate Hthrow.
Qed.

(** A rejecting animator fails the run with its error; if none rejects
    the run ends as the output stage does. *)
Lemma run_stages_first_rejection (prompt : list N) (a : App) :
  match first_rejection animators with
  | Some e =>
      snd (run_stages JSON_parse fetch animators ToString_other prompt a)
      = Failed e
  | None =>
      exists a4,
        run_stages JSON_parse fetch animators ToString_other prompt a
        = runOutputGeneration JSON_parse fetch ToString_other prompt a4
  end.
Proof.
  unfold first_rejection, run_stages, and_then, runTokenization,
    runEmbeddings, runAttention, runFFN.
  destruct (tokenizer_animate animators); [|reflexivity].
  destruct (embeddings_animate animators); [|reflexivity].
  destruct (attention_animate animators); [|reflexivity].
  destruct (ffn_animate animators); [|reflexivity].
  eexists. reflexivity.
Qed.

(** A stage that relabels its own layer around one awaited promise [p]:
    the promise resolved or rejected, and in both cases only layers other
    than "output" were written. *)
Ltac early_stage_by p :=
  intros ?; destruct p; cbn [fst snd]; split;
  try discriminate;
  now rewrite ?layers_updateLayerStatus_other by discriminate.

(** The four animated stages leave the "output" layer alone and never
    hang. *)
Lemma runTokenization_early (prompt : list N) :
  early_stage (runTokenization animators prompt).
Proof.
  unfold runTokenization. early_stage_by (tokenizer_animate animators).
Qed.

Lemma runEmbeddings_early : early_stage (runEmbeddings animators).
Proof.
  unfold runEmbeddings. early_stage_by (embeddings_animate animators).
Qed.

Lemma runAttention_early : early_stage (runAttention animators).
Proof.
  unfold runAttention. early_stage_by (attention_animate animators).
Qed.

Lemma runFFN_early : early_stage (runFFN animators).
Proof.
  unfold runFFN. early_stage_by (ffn_animate animators).
Qed.

Lemma and_then_early (m1 m2 : App -> App * Outcome) (a : App) :
  early_stage m1 ->
  output_reverted a ->
  (forall a1, output_reverted a1 -> settled_safely (m2 a1)) ->
  settled_safely (and_then m1 m2 a).
Proof.
  intros H1 Ha H2. unfold and_then. destruct (H1 a) as [Hl Hp].
  destruct (m1 a) as [a1 r1]. cbn [fst snd] in *.
  assert (Ha1 : output_reverted a1) by (unfold output_reverted; now rewrite Hl).
  destruct r1 as [|e1|].
  - now apply H2.
  - split; [discriminate|]. intros e _. exact Ha1.
  - contradiction.
Qed.

Lemma runOutputGeneration_safe (prompt : list N) (a : App) :
  settled_safely (runOutputGeneration JSON_parse fetch ToString_other prompt a).
Proof.
  destruct (runOutputGeneration_settles prompt a) as [Hd|(e & He & Hl)];
    cbn zeta in *; split.
  - rewrite Hd. discriminate.
  - intros e He. rewrite Hd in He. discriminate He.
  - rewrite He. discriminate.
  - intros e' _. unfold output_reverted. rewrite Hl. cbn. now split; [|right].
Qed.

Lemma run_stages_safe (prompt : list N) (a : App) :
  output_reverted a ->
  settled_safely
    (run_stages JSON_parse fetch animators ToString_other prompt a).
Proof.
  intros Ha. unfold run_stages.
  apply and_then_early; [apply runTokenization_early|exact Ha|].
  intros a1 Ha1.
  apply and_then_early; [apply runEmbeddings_early|exact Ha1|].
  intros a2 Ha2.
  apply and_then_early; [apply runAttention_early|exact Ha2|].
  intros a3 Ha3.
  apply and_then_early; [apply runFFN_early|exact Ha3|].
  intros a4 _. apply runOutputGeneration_safe.
Qed.

Lemma start_output_reverted (a : App) : output_reverted (start a).
Proof. split; [reflexivity|left; reflexivity]. Qed.

(** C4: a run that starts never hangs in its [try] block and ends with
    the processing flag false and the submit button enabled; and whenever
    a stage throws (an animator rejects, or the streaming client invokes
    [onError]), the response shows ["Error: " + message] and the "output"
    layer is in the waiting state with the label "Waiting" or "Error". *)
Theorem C4_error_restores_idle (a : App) :
  isProcessing a = false ->
  trim (input_value a) <> [] ->
  let prompt := trim (input_value a) in
  let r := run_stages JSON_parse fetch animators ToString_other prompt
             (start a) in
  let a' := process JSON_parse fetch animators ToString_other a in
  snd r <> Pending /\
  isProcessing a' = false /\
  submitBtn_disabled a' = false /\
  forall e, snd r = Failed e ->
    responseOutput a' = js "Error: " ++ message e /\
    container_class (layers a' output) = waiting /\
    (status_text (layers a' output) = js "Waiting" \/
     status_text (layers a' output) = js "Error").
Proof.
  intros Hidle Hprompt prompt r a'. subst a' r prompt.
  unfold process. rewrite Hidle.
  destruct (run_stages_safe (trim (input_value a)) (start a)
              (start_output_reverted a)) as [Hp Hf].
  destruct (trim (input_value a)) as [|c prompt]; [contradiction|].
  destruct (run_stages JSON_parse fetch animators ToString_other
              (c :: prompt) (start a)) as [a1 o].
  cbn [fst snd] in *.
  split; [exact Hp|]. destruct o as [|e1|]; [| |contradiction].
  - split; [reflexivity|]. split; [reflexivity|].
    intros e He. discriminate He.
  - split; [reflexivity|]. split; [reflexivity|].
    intros e He. injection He as <-.
    split; [reflexivity|]. apply (Hf e1 eq_refl).
Qed.

End AppFacts.

(** ** The scenarios, run *)

Section ScenarioFacts.
Import Api App Scenarios.

(** Scenario C: [onToken("Hi")] once, then [onComplete] once. *)
Example scenario_C :
  log_of response_C quiet = [EvToken (JString (js "Hi")); EvComplete].
Proof. vm_compute. reflexivity. Qed.

(** Scenario D: [onError] once, with the status in the message. *)
Example scenario_D :
  log_of response_D quiet
  = [EvError (mkError (js "API Error: 500 - Internal Server Error"))].
Proof. vm_compute. reflexivity. Qed.

(** A read that fails after a token: [onError], and no [onComplete]. *)
Example scenario_read_fails :
  log_of response_read_fails quiet
  = [EvToken (JString (js "Hi")); EvError (mkError (js "network error"))].
Proof. vm_compute. reflexivity. Qed.



(** A sentinel-less body: the token of the line cut by the reads is
    delivered, the unfinished last line is not looked at, and
    [onComplete] follows. *)
Example scenario_no_sentinel :
  log_of response_no_sentinel quiet
  = [EvToken (JString (js "Hi")); EvComplete].
Proof. vm_compute. reflexivity. Qed.

Lemma C10_complete_without_sentinel_witness :
  let log :=
    snd (fst (streamCompletion parse_Hi (respond response_no_sentinel) quiet
                (js "Hello") tt)) in
  let toks :=
    omap (line_token parse_Hi)
      (complete_lines (chunks response_no_sentinel) []) in
  log = map EvToken toks ++ EvComplete ::
        match snd (onComplete quiet (replay quiet (map EvToken toks) tt)) with
        | None => []
        | Some e => [EvError e]
        end /\
  length (List.filter (fun ev => match ev with EvComplete => true
                                             | _ => false end) log) = 1%nat.
Proof.
  apply (C10_complete_without_sentinel parse_Hi
           (respond response_no_sentinel) quiet (js "Hello") tt
           response_no_sentinel).
  - reflexivity.
  - reflexivity.
  - reflexivity.
  - vm_compute. repeat constructor.
Defined.

(** A run whose request gets status 500. *)
Example process_http_error :
  shown (process parse_Hi (respond response_D) all_resolve no_other_tokens
           page)
  = (false, false, js "Error: API Error: 500 - Internal Server Error",
     waiting, js "Error").
Proof. vm_compute. reflexivity. Qed.

(** A run whose attention stage rejects: the "output" layer still has
    the label of [reset()]. *)
Example process_attention_rejects :
  shown (process parse_Hi (respond response_C) attention_rejects
           no_other_tokens page)
  = (false, false, js "Error: Cannot read properties of null",
     waiting, js "Waiting").
Proof. vm_compute. reflexivity. Qed.

(** A run that succeeds. *)
Example process_success :
  shown (process parse_Hi (respond response_C) all_resolve no_other_tokens
           page)
  = (false, false, js "Hi", completed, js "1 tokens").
Proof. vm_compute. reflexivity. Qed.

(** A run whose third read of the body fails, after one token. *)
Example run_stages_read_fails :
  snd (run_stages parse_Hi (respond response_read_fails) all_resolve
         no_other_tokens (trim (input_value page)) (start page))
  = Failed (mkError (js "network error")).
Proof. vm_compute. reflexivity. Qed.

Lemma C4_error_restores_idle_witness :
  let a' := process parse_Hi (respond response_read_fails) all_resolve
              no_other_tokens page in
  isProcessing a' = false /\
  submitBtn_disabled a' = false /\
  responseOutput a' = js "Error: " ++ js "network error" /\
  container_class (layers a' output) = waiting /\
  (status_text (layers a' output) = js "Waiting" \/
   status_text (layers a' output) = js "Error").
Proof.
  destruct (C4_error_restores_idle parse_Hi (respond response_read_fails)
              all_resolve no_other_tokens page)
    as (_ & Hidle & Hsubmit & Herror).
  - reflexivity.
  - vm_compute. discriminate.
  - split; [exact Hidle|]. split; [exact Hsubmit|].
    apply (Herror (mkError (js "network error"))).
    vm_compute. reflexivity.
Defined.

End ScenarioFacts.

(** The call [generateDistribution("Hi")] with a draw of one half: the
    selected row comes first with probability 0.45 (as a double). *)
Example generateDistribution_Hi :
  map (fun e => (Output.token e, Output.probability e, Output.selected e))
    (fst (fst (Output.generateDistribution (fun _ => 0.5) (js "Hi")
                 Config.CONFIG 0 {| Output.currentTokens := [] |})))
  = [ (js "Hi", 0.44999999999999996, true);
      (js "a", 0.27500000000000002, false);
      (js "is", 0.13750000000000001, false);
      (js "in", 0.068750000000000006, false);
      (js "to", 0.034375000000000003, false) ].
Proof. vm_compute. reflexivity. Qed.

Lemma C7_distribution_selected_once_witness :
  let probs :=
    fst (fst (Output.generateDistribution (fun _ => 0.5) (js "Hi")
                Config.CONFIG 0 {| Output.currentTokens := [] |})) in
  (exists e,
     filter (fun x => Output.selected x = true) probs = [e] /\
     Output.token e = js "Hi" /\
     filter (fun x => Output.token x = js "Hi") probs = [e]) /\
  Output.currentTokens
    (snd (fst (Output.generateDistribution (fun _ => 0.5) (js "Hi")
                 Config.CONFIG 0 {| Output.currentTokens := [] |})))
    = probs /\
  (js "Hi" ∉ Output.vocabulary ->
   Output.candidates (js "Hi") !! 0%nat = Some (js "Hi")).
Proof.
  apply (C7_distribution_selected_once (fun _ => 0.5) (js "Hi")
           Config.CONFIG 0 {| Output.currentTokens := [] |}).
  discriminate.
Defined.

(** A run with four tokens and every draw equal to one half. *)
Lemma C6_attention_causal_normalized_witness :
  let random := fun _ : nat => (1 / 2)%R in
  let toks := [js "<BOS>"; js "Hi"; js "!"; js "<EOS>"] in
  let av := {| Attention.tokens := []; Attention.attentionWeights := [] |} in
  let ws :=
    fst (fst (Attention.generateAttentionWeights random toks Config.CONFIG
                0 av)) in
  length ws = 4%nat /\
  Attention.attentionWeights
    (snd (fst (Attention.generateAttentionWeights random toks Config.CONFIG
                 0 av))) = ws /\
  forall i, (i < 4)%nat ->
    exists row, ws !! i = Some row /\
      length row = 4%nat /\
      (forall j, (i < j)%nat -> (j < 4)%nat -> row !! j = Some 0%R) /\
      Attention.row_sum row = 1%R.
Proof.
  intros random toks av.
  apply (C6_attention_causal_normalized random
           (fun k => conj (ltac:(unfold random; lra) : (0 <= random k)%R)
                          (ltac:(unfold random; lra) : (random k < 1)%R))
           toks Config.CONFIG 0 av).
Defined.

(** * Further properties of the modules *)



(** ** Tokenizer: the content of the tokens and their elements *)

Section TokenizerContentFacts.
Import Tokenizer TokenizerView.

Lemma span_run (p : N -> bool) (s : list N) :
  forallb p (fst (span p s)) = true.
Proof.
  induction s as [|c s IH]; [reflexivity|].
  cbn. destruct (p c) eqn:Hc; [|reflexivity].
  destruct (span p s) as [run rest]. cbn in *. now rewrite Hc.
Qed.

Lemma span_nil (p : N -> bool) (s : list N) :
  fst (span p s) = [] ->
  match s with c :: _ => p c = false | [] => True end.
Proof.
  destruct s as [|c s]; [trivial|]. cbn.
  destruct (p c); [|reflexivity]. destruct (span p s). discriminate.
Qed.

Lemma filter_all_kept (f : N -> bool) (run rest : list N) :
  forallb f run = true -> List.filter f (run ++ rest) = run ++ List.filter f rest.
Proof.
  induction run as [|c run IH]; [reflexivity|].
  cbn. intros H. apply andb_true_iff in H as [Hc Hr].
  rewrite Hc. now rewrite IH.
Qed.

Lemma forallb_isMatched (l : list N) :
  forallb isWordOrApostrophe l = true -> forallb isMatched l = true.
Proof.
  induction l as [|c l IH]; [reflexivity|].
  cbn. intros H. apply andb_true_iff in H as [Hc Hl].
  unfold isMatched at 1. now rewrite Hc, IH.
Qed.

Lemma exec_at_spec (s : list N) :
  match exec_at s with
  | Some (m, rest) => s = m ++ rest /\ token_shape m
  | None => match s with c :: _ => isMatched c = false | [] => True end
  end.
Proof.
  unfold exec_at.
  pose proof (span_app isWordOrApostrophe s) as Happ.
  pose proof (span_run isWordOrApostrophe s) as Hrun.
  pose proof (span_nil isWordOrApostrophe s) as Hnil.
  destruct (span isWordOrApostrophe s) as [[|c run] rest]; cbn [fst snd] in *.
  - specialize (Hnil eq_refl). destruct s as [|c s']; [exact I|].
    destruct (isPunctuation c) eqn:Hp.
    + split; [reflexivity|]. right. now exists c.
    + unfold isMatched. now rewrite Hnil, Hp.
  - split; [now symmetry|]. left. split; [discriminate|exact Hrun].
Qed.

Lemma token_shape_matched (m : list N) :
  token_shape m -> forallb isMatched m = true.
Proof.
  intros [[_ H]|(c & -> & H)]; [now apply forallb_isMatched|].
  cbn. unfold isMatched. rewrite H. now rewrite orb_true_r.
Qed.

(** The matches, end to end, are the text without the code units that
    neither alternative matches; and every match has one of the two
    shapes. *)
Lemma matches_spec (fuel : nat) (s : list N) :
  (length s <= fuel)%nat ->
  concat (matches fuel s) = List.filter isMatched s /\
  Forall token_shape (matches fuel s).
Proof.
  revert s. induction fuel as [|fuel IH]; intros s Hs.
  - destruct s; [split; [reflexivity|constructor]|cbn in Hs; lia].
  - destruct s as [|c s']; [split; [reflexivity|constructor]|].
    cbn [matches]. pose proof (exec_at_spec (c :: s')) as He.
    destruct (exec_at (c :: s')) as [[m rest]|] eqn:E.
    + destruct He as [Heq Hshape].
      assert (Hlen : (length rest <= fuel)%nat).
      { apply exec_at_consumes in E. cbn in Hs, E. lia. }
      destruct (IH rest Hlen) as [IH1 IH2]. split; [|now constructor].
      cbn [concat]. rewrite Heq, IH1.
      symmetry. apply filter_all_kept. now apply token_shape_matched.
    + cbn in Hs. destruct (IH s' ltac:(lia)) as [IH1 IH2].
      split; [|exact IH2]. cbn [List.filter]. now rewrite He.
Qed.

Lemma rawTokens_matches (text : list N) :
  default [] (String_match text) = matches (length text) text.
Proof.
  unfold String_match. now destruct (matches (length text) text).
Qed.

(** X1: tokenizing loses exactly the code units that the expression
    matches nowhere.  The tokens between the two sentinels, joined end to
    end, are the input text without the code units that are neither a
    word character or apostrophe nor one of the listed punctuation marks;
    the order of the text is kept and nothing is added. *)
Theorem X1_tokenize_keeps_matched_text (text : list N)
    (tv : TokenizerVisualizer) :
  exists rawTokens,
    fst (tokenize text tv) = js "<BOS>" :: rawTokens ++ [js "<EOS>"] /\
    concat rawTokens = List.filter isMatched text.
Proof.
  exists (default [] (String_match text)). split; [reflexivity|].
  rewrite rawTokens_matches. now apply matches_spec.
Qed.

(** X2: every token [tokenize] returns is a sentinel, a non-empty run of
    word characters and apostrophes, or one single punctuation mark: no
    token is empty, and none contains white space. *)
Theorem X2_tokenize_token_shapes (text : list N) (tv : TokenizerVisualizer)
    (i : nat) (t : list N) :
  fst (tokenize text tv) !! i = Some t ->
  t = js "<BOS>" \/ t = js "<EOS>" \/
  (t <> [] /\ forallb isWordOrApostrophe t = true) \/
  (exists c, t = [c] /\ isPunctuation c = true).
Proof.
  intros Hi. apply list_elem_of_lookup_2 in Hi. cbn in Hi.
  rewrite rawTokens_matches in Hi.
  apply elem_of_cons in Hi as [->|Hi]; [now left|].
  apply elem_of_app in Hi as [Hi|Hi].
  - right. right.
    destruct (matches_spec (length text) text (le_n _)) as [_ Hall].
    rewrite Forall_forall in Hall. exact (Hall t Hi).
  - apply list_elem_of_singleton in Hi. right. now left.
Qed.

Lemma token_shape_not_sentinel (t : list N) :
  token_shape t -> startsWith t (js "<") = false.
Proof.
  intros [[Hne H]|(c & -> & H)].
  - destruct t as [|c t]; [contradiction|]. cbn in H.
    apply andb_true_iff in H as [H _].
    change (js "<") with [60%N]. cbn [startsWith].
    destruct (N.eqb_spec 60 c) as [<-|]; [discriminate H|reflexivity].
  - change (js "<") with [60%N]. cbn [startsWith].
    destruct (N.eqb_spec 60 c) as [<-|]; [discriminate H|reflexivity].
Qed.

Lemma filter_no_sentinel (l : list (list N)) :
  Forall token_shape l ->
  filter (fun t => negb (startsWith t (js "<"))) l = l.
Proof.
  induction 1 as [|t l Ht _ IH]; [reflexivity|].
  rewrite filter_cons_True; [now rewrite IH|].
  rewrite (token_shape_not_sentinel t Ht). exact I.
Qed.

(** X3: after [tokenize], [getTokenCount()] is the number of tokens
    without the two sentinels, for every text: no token taken from the
    text starts with the character the filter looks for. *)
Theorem X3_getTokenCount_excludes_sentinels (text : list N)
    (tv : TokenizerVisualizer) :
  S (S (getTokenCount (snd (tokenize text tv))))
  = length (fst (tokenize text tv)).
Proof.
  unfold getTokenCount. cbn [tokenize snd fst tokens].
  rewrite rawTokens_matches.
  destruct (matches_spec (length text) text (le_n _)) as [_ Hall].
  rewrite filter_cons_False by (cbn; tauto).
  rewrite filter_app, (filter_no_sentinel _ Hall).
  rewrite filter_cons_False by (cbn; tauto).
  rewrite filter_nil, app_nil_r. cbn. rewrite length_app. cbn. lia.
Qed.

(** X4: a text in which no code unit is matched (the empty text, white
    space, symbols outside the two classes) gives the two sentinels alone
    and a token count of zero. *)
Theorem X4_tokenize_nothing_matched (text : list N) (tv : TokenizerVisualizer) :
  forallb (fun c => negb (isMatched c)) text = true ->
  fst (tokenize text tv) = [js "<BOS>"; js "<EOS>"] /\
  getTokenCount (snd (tokenize text tv)) = 0%nat.
Proof.
  intros Hnone.
  assert (Hraw : default [] (String_match text) = []).
  { rewrite rawTokens_matches.
    destruct (matches_spec (length text) text (le_n _)) as [Hcat Hall].
    assert (Hf : List.filter isMatched text = []).
    { clear -Hnone. induction text as [|c text IH]; [reflexivity|].
      cbn in *. apply andb_true_iff in Hnone as [Hc Ht].
      apply negb_true_iff in Hc. rewrite Hc. now apply IH. }
    rewrite Hf in Hcat.
    destruct (matches (length text) text) as [|m ms]; [reflexivity|].
    apply Forall_cons in Hall as [Hm _]. cbn in Hcat.
    apply app_eq_nil in Hcat as [-> _].
    destruct Hm as [[Hne _]|(c & Hc & _)]; [contradiction|discriminate]. }
  unfold getTokenCount. cbn [tokenize snd fst tokens]. rewrite Hraw.
  split; reflexivity.
Qed.

Lemma X4_tokenize_nothing_matched_witness :
  fst (tokenize (js "  @ #  ") {| tokens := [] |}) = [js "<BOS>"; js "<EOS>"] /\
  getTokenCount (snd (tokenize (js "  @ #  ") {| tokens := [] |})) = 0%nat.
Proof.
  apply (X4_tokenize_nothing_matched (js "  @ #  ") {| tokens := [] |}).
  reflexivity.
Defined.

Lemma isMatched_not_markup (ch : N) :
  isMatched ch = true -> isMarkup ch = false.
Proof.
  unfold isMarkup. intros H.
  destruct (N.eqb_spec ch 60) as [->|_]; [discriminate H|].
  destruct (N.eqb_spec ch 62) as [->|_]; [discriminate H|].
  destruct (N.eqb_spec ch 38) as [->|_]; [discriminate H|reflexivity].
Qed.

Lemma token_shape_plain (t : list N) :
  token_shape t ->
  t <> BOS /\ t <> EOS /\ forallb (fun ch => negb (isMarkup ch)) t = true.
Proof.
  intros Hs. apply token_shape_matched in Hs.
  repeat split; try (intros ->; discriminate Hs).
  induction t as [|ch t IH]; [reflexivity|].
  cbn in *. apply andb_true_iff in Hs as [Hc Ht].
  now rewrite (isMatched_not_markup ch Hc), IH.
Qed.

(** X5: the elements [animate()] builds after [tokenize(text)], one for
    each token: the class [special] is on the first and the last element
    and on no other; the text written into an element contains none of
    the code units that start a tag or an entity; the index shown is the
    position; and an element that is not special carries a colour of the
    palette, when the palette is not empty. *)
Theorem X5_animate_marks_sentinels (text : list N) (c : Config.Config)
    (tv : TokenizerVisualizer) (i : nat) (el : TokenElement) :
  let els := animate_elements c (snd (tokenize text tv)) in
  els !! i = Some el ->
  length els = length (fst (tokenize text tv)) /\
  (special el = true <-> i = 0%nat \/ S i = length els) /\
  forallb (fun ch => negb (isMarkup ch)) (token_text el) = true /\
  token_index el = i /\
  (special el = false -> Config.tokenColors c <> [] ->
   exists color, data_color el = Some color /\ color ∈ Config.tokenColors c).
Proof.
  cbn zeta. unfold animate_elements. cbn [tokenize snd fst tokens].
  rewrite rawTokens_matches.
  destruct (matches_spec (length text) text (le_n _)) as [_ Hall].
  set (raw := matches (length text) text) in *.
  rewrite list_lookup_imap, length_imap. intros Hel.
  destruct ((BOS :: raw ++ [EOS]) !! i) as [t|] eqn:Ht; [|discriminate].
  injection Hel as <-. split; [reflexivity|].
  assert (Hcases : (i = 0%nat /\ t = BOS) \/
                   (S i = length (BOS :: raw ++ [EOS]) /\ t = EOS) \/
                   (i <> 0%nat /\ S i <> length (BOS :: raw ++ [EOS]) /\
                    token_shape t)).
  { destruct i as [|i]; [left; cbn in Ht; now injection Ht as <-|].
    right. change ((raw ++ [EOS]) !! i = Some t) in Ht.
    cbn [length]. rewrite length_app. cbn [length].
    destruct (decide (i < length raw)%nat) as [Hlt|Hge].
    - right. rewrite lookup_app_l in Ht by exact Hlt.
      split; [discriminate|]. split; [lia|].
      rewrite Forall_forall in Hall. apply Hall.
      now apply list_elem_of_lookup_2 in Ht.
    - left. rewrite lookup_app_r in Ht by lia.
      destruct (i - length raw)%nat as [|d] eqn:Ed; [|discriminate].
      cbn in Ht. injection Ht as <-. split; [lia|reflexivity]. }
  destruct Hcases as [(-> & ->)|[(Hlast & ->)|(Hn0 & Hnl & Hshape)]].
  - cbn. repeat split; try tauto; try discriminate.
  - cbn. repeat split; try tauto; try discriminate.
  - destruct (token_shape_plain t Hshape) as (Hb & He & Hplain).
    unfold token_element.
    rewrite (bool_decide_eq_false_2 _ Hb), (bool_decide_eq_false_2 _ He).
    cbn [orb special token_text token_index data_color].
    split; [|split; [exact Hplain|split; [reflexivity|]]].
    + split; [discriminate|]. intros [Hz|Hl]; [now apply Hn0 in Hz|].
      now apply Hnl in Hl.
    + intros _ Hpal. unfold palette_color.
      destruct (Config.tokenColors c) as [|c0 cs] eqn:Ec; [contradiction|].
      assert (Hlt : (i mod length (c0 :: cs) < length (c0 :: cs))%nat)
        by (apply Nat.mod_upper_bound; discriminate).
      destruct (lookup_lt_is_Some_2 _ _ Hlt) as [col Hcol].
      rewrite Hcol. exists col. split; [reflexivity|].
      now apply list_elem_of_lookup_2 in Hcol.
Qed.

Lemma X2_tokenize_token_shapes_witness :
  js "Hi" = js "<BOS>" \/ js "Hi" = js "<EOS>" \/
  (js "Hi" <> [] /\ forallb isWordOrApostrophe (js "Hi") = true) \/
  (exists c, js "Hi" = [c] /\ isPunctuation c = true).
Proof.
  apply (X2_tokenize_token_shapes (js "Hi!") {| tokens := [] |} 1 (js "Hi")).
  reflexivity.
Defined.

Lemma X5_animate_marks_sentinels_witness :
  let els :=
    animate_elements Config.CONFIG
      (snd (tokenize (js "Hi!") {| tokens := [] |})) in
  let el := token_element Config.CONFIG 1 (js "Hi") in
  length els = length (fst (tokenize (js "Hi!") {| tokens := [] |})) /\
  (special el = true <-> 1%nat = 0%nat \/ 2%nat = length els) /\
  forallb (fun ch => negb (isMarkup ch)) (token_text el) = true /\
  token_index el = 1%nat /\
  (special el = false -> Config.tokenColors Config.CONFIG <> [] ->
   exists color,
     data_color el = Some color /\ color ∈ Config.tokenColors Config.CONFIG).
Proof.
  apply (X5_animate_marks_sentinels (js "Hi!") Config.CONFIG
           {| tokens := [] |} 1 (token_element Config.CONFIG 1 (js "Hi"))).
  reflexivity.
Defined.

End TokenizerContentFacts.



(** ** Embeddings: the hash, the range of the values, the bars *)

Section EmbeddingsRangeFacts.
Import Config Embeddings EmbeddingsView.

Lemma elem_of_take_elem {A} (n : nat) (l : list A) (x : A) :
  x ∈ take n l -> x ∈ l.
Proof.
  intros H. apply list_elem_of_lookup in H as [i Hi].
  apply lookup_take_Some in Hi as [Hi _].
  now apply list_elem_of_lookup_2 in Hi.
Qed.

Lemma ToInt32_periodic (a k : Z) :
  ToInt32 (a + k * 2 ^ 32) = ToInt32 a.
Proof.
  unfold ToInt32.
  replace (a + k * 2 ^ 32 + 2 ^ 31)%Z with (a + 2 ^ 31 + k * 2 ^ 32)%Z by lia.
  now rewrite Z_mod_plus_full.
Qed.

Lemma ToInt32_decompose (a : Z) :
  exists k, ToInt32 a = (a + k * 2 ^ 32)%Z.
Proof.
  exists (- ((a + 2 ^ 31) / 2 ^ 32))%Z. unfold ToInt32.
  pose proof (Z_div_mod_eq_full (a + 2 ^ 31) (2 ^ 32)). lia.
Qed.

Lemma hash_step_polynomial (P : Z) (c : N) :
  hash_step (ToInt32 P) c = ToInt32 (31 * P + Z.of_N c).
Proof.
  unfold hash_step. rewrite Z.land_diag, Z.shiftl_mul_pow2 by lia.
  destruct (ToInt32_decompose P) as [k1 H1].
  destruct (ToInt32_decompose (ToInt32 P)) as [k2 H2].
  destruct (ToInt32_decompose (ToInt32 (ToInt32 P) * 2 ^ 5)) as [k3 H3].
  rewrite H3, H2, H1.
  replace ((P + k1 * 2 ^ 32 + k2 * 2 ^ 32) * 2 ^ 5 + k3 * 2 ^ 32
           - (P + k1 * 2 ^ 32) + Z.of_N c)%Z
    with (31 * P + Z.of_N c + (31 * k1 + 32 * k2 + k3) * 2 ^ 32)%Z by lia.
  apply ToInt32_periodic.
Qed.

Lemma fold_hash_step_polynomial (t : list N) :
  fold_left hash_step t 0%Z = ToInt32 (polynomial31 t).
Proof.
  unfold polynomial31.
  induction t as [|c t IH] using rev_ind; [reflexivity|].
  rewrite !fold_left_app. cbn. rewrite IH. apply hash_step_polynomial.
Qed.

(** X6: [hashToken] is the base-31 polynomial hash of the code units,
    reduced to a signed 32-bit integer only once at the end, in absolute
    value: the reductions at every step of the loop change nothing.  The
    result lies between 0 and 2^31, both included. *)
Theorem X6_hashToken_is_base31_hash (t : list N) :
  hashToken t = Z.abs (ToInt32 (polynomial31 t)) /\
  (0 <= hashToken t <= 2 ^ 31)%Z.
Proof.
  split; [|apply hashToken_range].
  unfold hashToken. now rewrite fold_hash_step_polynomial.
Qed.

Lemma residues_satisfy_spec (P : float -> bool) (fuel : nat) (r z : Z) :
  residues_satisfy P fuel r = true ->
  (r <= z < r + Z.of_nat fuel)%Z ->
  P (value_of_residue z) = true.
Proof.
  revert r. induction fuel as [|fuel IH]; intros r H Hz; [lia|].
  cbn [residues_satisfy] in H. apply andb_true_iff in H as [H0 H1].
  destruct (Z.eq_dec z r) as [->|Hne]; [exact H0|].
  apply (IH (r + 1)%Z H1). lia.
Qed.

Lemma all_residues_in_range :
  residues_satisfy in_unit_range (Z.to_nat 233280) 0 = true.
Proof. vm_compute. reflexivity. Qed.

Lemma all_residues_heights :
  residues_satisfy (fun v => is_height (bar_height v)) (Z.to_nat 233280) 0
  = true.
Proof. vm_compute. reflexivity. Qed.

Lemma embedding_value_residue (P : float -> bool) (seed : Z) (i : nat) :
  residues_satisfy P (Z.to_nat 233280) 0 = true ->
  P (embedding_value seed i) = true.
Proof.
  intros H. unfold embedding_value.
  fold (value_of_residue (lcg_argument seed i mod 233280)).
  apply (residues_satisfy_spec P (Z.to_nat 233280) 0 _ H).
  pose proof (Z.mod_pos_bound (lcg_argument seed i) 233280 ltac:(lia)). lia.
Qed.

Lemma embedding_value_in_range (seed : Z) (i : nat) :
  in_unit_range (embedding_value seed i) = true.
Proof.
  apply embedding_value_residue, all_residues_in_range.
Qed.

(** X7: the embedding at position [i] belongs to the token at position
    [i] and records that position, it has one value for each configured
    dimension, and each value [v] satisfies [0.1 <= v < 1] in the doubles
    the code computes with. *)
Theorem X7_embedding_values_bounded (toks : list (list N)) (c : Config)
    (ev : EmbeddingsVisualizer) (i : nat) (e : Embedding) :
  fst (generateEmbeddings toks c ev) !! i = Some e ->
  toks !! i = Some (token e) /\
  index e = i /\
  length (values e) = embeddingDimensions (visualization c) /\
  Forall (fun v => (0.1 <=? v) = true /\ (v <? 1) = true) (values e).
Proof.
  cbn. rewrite list_lookup_imap. intros H.
  destruct (toks !! i) as [t|] eqn:Ht; [|discriminate].
  injection H as <-. cbn. repeat split.
  - unfold embedding_values. now rewrite length_map, length_seq.
  - unfold embedding_values. apply Forall_forall. intros v Hv.
    apply list_elem_of_fmap in Hv as (j & -> & _).
    pose proof (embedding_value_in_range (hashToken t) j) as H.
    unfold in_unit_range in H. now apply andb_true_iff in H.
Qed.

(** X8: [animate(tokens)] draws bars for at most [attentionMaxTokens]
    tokens, one bar for each dimension, and every bar height
    [Math.round(val * 36) + 4] is one of the integers 8, ..., 40. *)
Theorem X8_embedding_bar_heights (toks : list (list N)) (c : Config)
    (ev : EmbeddingsVisualizer) :
  let bars := animate_bars toks c ev in
  length bars =
    Nat.min (attentionMaxTokens (visualization c)) (length toks) /\
  Forall (fun heights =>
            length heights = embeddingDimensions (visualization c) /\
            Forall (fun h => is_height h = true) heights) bars.
Proof.
  cbn zeta. unfold animate_bars, displayEmbeddings.
  cbn [generateEmbeddings snd embeddings]. split.
  - now rewrite length_map, length_take, length_imap.
  - apply Forall_forall. intros heights Hin.
    apply list_elem_of_fmap in Hin as (emb & -> & Hemb).
    apply elem_of_take_elem in Hemb.
    apply list_elem_of_lookup in Hemb as [i Hi].
    rewrite list_lookup_imap in Hi.
    destruct (toks !! i) as [t|]; [|discriminate]. injection Hi as <-.
    cbn [values]. unfold embedding_values. split.
    + now rewrite !length_map, length_seq.
    + apply Forall_forall. intros h Hh.
      apply list_elem_of_fmap in Hh as (v & -> & Hv).
      apply list_elem_of_fmap in Hv as (j & -> & _).
      apply (embedding_value_residue (fun v => is_height (bar_height v))),
        all_residues_heights.
Qed.

Lemma X7_embedding_values_bounded_witness :
  let e := {| token := js "cat"; index := 1;
              values := embedding_values 8 (hashToken (js "cat")) |} in
  [js "<BOS>"; js "cat"] !! 1%nat = Some (token e) /\
  index e = 1%nat /\
  length (values e) = embeddingDimensions (visualization CONFIG) /\
  Forall (fun v => (0.1 <=? v) = true /\ (v <? 1) = true) (values e).
Proof.
  apply (X7_embedding_values_bounded [js "<BOS>"; js "cat"] CONFIG
           {| embeddings := [] |} 1
           {| token := js "cat"; index := 1;
              values := embedding_values 8 (hashToken (js "cat")) |}).
  reflexivity.
Defined.

End EmbeddingsRangeFacts.



(** ** Attention: bounds of the weights *)

Section AttentionEntryFacts.
Import Config Attention AttentionBounds.

Variable random : nat -> R.
Hypothesis random_range : forall k, (0 <= random k < 1)%R.

Lemma weight_bounds (i j k : nat) : raw_bounds i j (fst (weight random i j k)).
Proof.
  unfold weight, raw_bounds. destruct (Nat.leb_spec j i) as [Hle|Hlt]; cbn.
  - pose proof (random_range k) as Hr.
    pose proof (exp_pos (- INR (i - j) * 0.3)) as He.
    split; [apply Rmin_l|]. intros _. apply Rmin_glb_lt; lra.
  - split; [lra|lia].
Qed.

Lemma build_row_bounds (i : nat) (cols : list nat) (k : nat) :
  Forall2 (raw_bounds i) cols (fst (build_row random i cols k)).
Proof.
  revert k. induction cols as [|j cols IH]; intros k; cbn; [constructor|].
  pose proof (weight_bounds i j k) as Hw.
  destruct (weight random i j k) as [w k1].
  specialize (IH k1). destruct (build_row random i cols k1) as [row k2].
  constructor; assumption.
Qed.

(** A finished row [i]: every entry is in [0, 1], the entries up to the
    diagonal are positive, and none exceeds the diagonal entry. *)
Lemma normalize_row_bounds (n i k j : nat) (w : R) :
  (i < n)%nat ->
  normalize (fst (build_row random i (seq 0 n) k)) !! j = Some w ->
  (0 <= w <= 1)%R /\ ((j <= i)%nat -> (0 < w)%R) /\
  exists d, normalize (fst (build_row random i (seq 0 n) k)) !! i = Some d /\
            (w <= d)%R.
Proof.
  intros Hi Hj.
  pose proof (build_row_raw random random_range i (seq 0 n) k) as Hraw.
  pose proof (build_row_bounds i (seq 0 n) k) as Hb.
  set (row := fst (build_row random i (seq 0 n) k)) in *.
  assert (Hsum : (1 <= row_sum row)%R).
  { apply (row_sum_diagonal i (seq 0 n)); [exact Hraw|].
    apply elem_of_seq. lia. }
  unfold normalize in *. rewrite list_lookup_fmap in Hj.
  destruct (row !! j) as [r|] eqn:Hr; [|discriminate]. injection Hj as <-.
  destruct (Forall2_lookup_r _ _ _ j r Hraw Hr) as (j' & Hj' & (Hr0 & _ & _)).
  destruct (Forall2_lookup_r _ _ _ j r Hb Hr) as (j'' & Hj'' & (Hr1 & Hpos)).
  apply lookup_seq in Hj'' as [-> _]. cbn in Hpos.
  destruct (Forall2_lookup_l _ _ _ i i Hraw) as (d & Hd & (_ & Hdiag & _)).
  { apply lookup_seq. lia. }
  specialize (Hdiag eq_refl). subst d.
  assert (Hinv : (0 < / row_sum row)%R) by (apply Rinv_0_lt_compat; lra).
  assert (Hle1 : (/ row_sum row <= 1)%R).
  { rewrite <- Rinv_1. apply Rinv_le_contravar; lra. }
  unfold Rdiv. repeat split.
  - apply Rmult_le_pos; lra.
  - nra.
  - intros Hji. apply Rmult_lt_0_compat; [now apply Hpos|exact Hinv].
  - exists (1 / row_sum row)%R. rewrite list_lookup_fmap, Hd. split; [reflexivity|].
    unfold Rdiv. apply Rmult_le_compat_r; lra.
Qed.

Lemma build_rows_lookup (n : nat) (rows : list nat) (k p : nat) (row : list R) :
  fst (build_rows random n rows k) !! p = Some row ->
  exists i k', rows !! p = Some i /\
    row = normalize (fst (build_row random i (seq 0 n) k')).
Proof.
  revert k p. induction rows as [|i rows IH]; intros k p; cbn; [discriminate|].
  destruct (build_row random i (seq 0 n) k) as [raw k1] eqn:E.
  specialize (IH k1). destruct (build_rows random n rows k1) as [ws k2].
  destruct p as [|p]; cbn.
  - intros [= <-]. exists i, k. now rewrite E.
  - intros H. destruct (IH p H) as (i' & k' & Hi' & Hrow). now exists i', k'.
Qed.

(** X9: every attention weight lies in [0, 1]; the weights on and below
    the diagonal are strictly positive, so a token attends to each token
    before it and to itself; and no weight of a row exceeds the row's
    diagonal entry.  Over the real numbers, with [Math.random] in
    [0, 1). *)
Theorem X9_attention_entries_bounded (toks : list (list N)) (c : Config)
    (k : nat) (av : AttentionVisualizer) (i j : nat) (row : list R) (w : R) :
  fst (fst (generateAttentionWeights random toks c k av)) !! i = Some row ->
  row !! j = Some w ->
  (0 <= w <= 1)%R /\
  ((j <= i)%nat -> (0 < w)%R) /\
  exists d, row !! i = Some d /\ (w <= d)%R.
Proof.
  unfold generateAttentionWeights.
  set (n := Nat.min (length toks) (attentionMaxTokens (visualization c))).
  destruct (build_rows random n (seq 0 n) k) as [ws k'] eqn:E. cbn [fst].
  intros Hrow Hw.
  pose proof (build_rows_lookup n (seq 0 n) k i row) as H.
  rewrite E in H. destruct (H Hrow) as (i' & k1 & Hi' & ->).
  apply lookup_seq in Hi' as [-> Hi]. cbn in *.
  now apply (normalize_row_bounds n i k1 j w).
Qed.

End AttentionEntryFacts.

(** ** Attention: the calls of [Math.random] *)

Section AttentionDrawFacts.
Import Config Attention.
Variable random : nat -> R.






End AttentionDrawFacts.

(** ** Attention: the cells [animate] draws *)

Section AttentionCellFacts.
Import Config Attention AttentionView.

Variable random : nat -> R.
Hypothesis random_range : forall k, (0 <= random k < 1)%R.

(** X22: every cell [animate(tokens)] draws has a weight.  With
    [n = this.tokens.length], each of the [n * n] cells reads a row and
    an entry that exist; the weight is in [0, 1], a valid opacity, and it
    is 0 for a cell above the diagonal. *)
Theorem X22_attention_cells_defined (toks : list (list N)) (c : Config)
    (k : nat) (av : AttentionVisualizer) (currentCell : nat) :
  let av' :=
    snd (fst (generateAttentionWeights random toks c k (clear av))) in
  (currentCell < totalCells av')%nat ->
  exists weight,
    cell_weight av' currentCell = Some weight /\
    (0 <= weight <= 1)%R /\
    ((currentCell / length (tokens av') < currentCell mod length (tokens av'))%nat
     -> weight = 0%R).
Proof.
  cbn zeta. unfold totalCells, cell_weight, generateAttentionWeights.
  set (n := Nat.min (length toks) (attentionMaxTokens (visualization c))).
  pose proof (build_rows_ok random random_range n (seq 0 n) k) as Hok.
  pose proof (build_rows_lookup random n (seq 0 n) k) as Hlook.
  destruct (build_rows random n (seq 0 n) k) as [ws k']. cbn [fst snd] in *.
  cbn [tokens attentionWeights].
  assert (Hn : length (take n toks) = n) by (rewrite length_take; lia).
  rewrite Hn. intros Hc.
  assert (n <> 0)%nat by lia.
  assert (Hi : (currentCell / n < n)%nat)
    by (apply Nat.Div0.div_lt_upper_bound; lia).
  assert (Hj : (currentCell mod n < n)%nat)
    by (apply Nat.mod_upper_bound; lia).
  set (i := (currentCell / n)%nat) in *. set (j := (currentCell mod n)%nat) in *.
  specialize (Hok ltac:(apply Forall_forall; intros x Hx;
                        apply elem_of_seq in Hx; lia)).
  destruct (Forall2_lookup_l _ _ _ i i Hok) as (row & Hrow & Hlen & Hzero & _).
  { apply lookup_seq. lia. }
  rewrite Hrow.
  destruct (lookup_lt_is_Some_2 row j ltac:(lia)) as [w Hw].
  exists w. split; [exact Hw|].
  destruct (Hlook i row Hrow) as (i' & k1 & Hi' & Heq).
  apply lookup_seq in Hi' as [Hi' _]. cbn in Hi'. subst i'.
  split.
  - rewrite Heq in Hw.
    now destruct (normalize_row_bounds random random_range n i k1 j w Hi Hw).
  - intros Hij. specialize (Hzero j Hij Hj). congruence.
Qed.

End AttentionCellFacts.

(** ** Output distribution: its rows *)

Section DistributionFacts.
Import Config Output.
Variable random : nat -> float.

Lemma vocabulary_NoDup : NoDup vocabulary.
Proof. apply (bool_decide_unpack _). vm_compute. reflexivity. Qed.

Lemma vocabulary_no_empty : ([] : list N) ∉ vocabulary.
Proof. apply (bool_decide_unpack _). vm_compute. reflexivity. Qed.

Lemma vocabulary_length : length vocabulary = 50%nat.
Proof. reflexivity. Qed.

Lemma filter_all {A : Type} (P : A -> Prop) `{forall x, Decision (P x)}
    (l : list A) :
  Forall P l -> filter P l = l.
Proof.
  induction 1 as [|x l Hx _ IH]; [reflexivity|].
  rewrite filter_cons_True by exact Hx. now rewrite IH.
Qed.

(** Removing a member of a duplicate-free list shortens it by one. *)
Lemma filter_remove_length (x : list N) (l : list (list N)) :
  NoDup l -> x ∈ l ->
  S (length (filter (fun t => t <> x) l)) = length l.
Proof.
  induction 1 as [|y l Hy Hl IH]; intros Hin.
  - apply elem_of_nil in Hin. contradiction.
  - apply elem_of_cons in Hin as [->|Hin].
    + rewrite filter_cons_False by tauto.
      rewrite filter_all; [reflexivity|].
      apply Forall_forall. intros t Ht ->. contradiction.
    + rewrite filter_cons_True by (intros ->; contradiction).
      cbn. now rewrite IH.
Qed.

(** The loop always has 49 other candidates to draw from. *)
Lemma otherTokens_length (sel : list N) :
  sel <> [] ->
  length (filter (fun t => t <> sel) (candidates sel)) = 49%nat.
Proof.
  intros Hne. unfold candidates.
  destruct sel as [|ch sel]; [contradiction|]. cbn [truthy andb].
  destruct (decide ((ch :: sel) ∈ vocabulary)) as [Hin|Hnot].
  - rewrite bool_decide_eq_true_2 by exact Hin. cbn [negb].
    pose proof (filter_remove_length _ _ vocabulary_NoDup Hin) as H.
    rewrite vocabulary_length in H. lia.
  - rewrite bool_decide_eq_false_2 by exact Hnot. cbn [negb].
    change (<[0%nat:=ch :: sel]> vocabulary)
      with ((ch :: sel) :: tail vocabulary).
    rewrite filter_cons_False by tauto.
    rewrite filter_all; [reflexivity|].
    apply Forall_forall. intros t Ht ->. apply Hnot.
    change vocabulary with (js "The" :: tail vocabulary). now right.
Qed.

Lemma candidates_NoDup (sel : list N) : NoDup (candidates sel).
Proof.
  unfold candidates.
  destruct (truthy sel && negb (bool_decide (sel ∈ vocabulary))) eqn:E;
    [|apply vocabulary_NoDup].
  apply andb_true_iff in E as [_ E]. apply negb_true_iff in E.
  apply bool_decide_eq_false in E.
  change (<[0%nat:=sel]> vocabulary) with (sel :: tail vocabulary).
  pose proof vocabulary_NoDup as Hv.
  change vocabulary with (js "The" :: tail vocabulary) in Hv, E.
  apply NoDup_cons in Hv as [_ Hv]. apply NoDup_cons. split; [|exact Hv].
  intros Hin. apply E. now right.
Qed.

Lemma candidates_members (sel t : list N) :
  t ∈ candidates sel -> t = sel \/ t ∈ vocabulary.
Proof.
  unfold candidates.
  destruct (truthy sel && negb (bool_decide (sel ∈ vocabulary)));
    [|now right].
  change (<[0%nat:=sel]> vocabulary) with (sel :: tail vocabulary).
  intros Hin. apply elem_of_cons in Hin as [->|Hin]; [now left|].
  right. change vocabulary with (js "The" :: tail vocabulary). now right.
Qed.


Lemma tokens_of_others (remaining : float) (l : list (list N)) :
  map token
    (imap (fun i t => {| token := t;
                         probability := remaining * pow_half (i + 1);
                         selected := false |}) l) = l.
Proof.
  revert remaining.
  assert (H : forall (f : nat -> list N -> Entry) l,
             (forall i t, token (f i t) = t) -> map token (imap f l) = l).
  { clear. intros f l. revert f. induction l as [|t l IH]; intros f Hf;
      [reflexivity|].
    cbn. rewrite Hf. f_equal. apply IH. intros i t'. apply Hf. }
  intros remaining. now apply H.
Qed.

(** X11: for a non-empty selected token the distribution has
    [1 + min(topK - 1, 49)] rows, whether or not the token is in the
    vocabulary; no token appears in two rows; every row that is not the
    selected one shows a word of the vocabulary; and [Math.random] is
    called exactly once. *)
Theorem X11_distribution_rows (selectedToken : list N) (c : Config)
    (k : nat) (ov : OutputVisualizer) :
  selectedToken <> [] ->
  let probs :=
    fst (fst (generateDistribution random selectedToken c k ov)) in
  length probs = S (Nat.min (topKOutputTokens (visualization c) - 1) 49) /\
  NoDup (map token probs) /\
  (forall e, e ∈ probs -> selected e = false -> token e ∈ vocabulary) /\
  snd (generateDistribution random selectedToken c k ov) = S k.
Proof.
  intros Hne probs. subst probs. unfold generateDistribution.
  pose proof (otherTokens_length selectedToken Hne) as Hlen.
  pose proof (candidates_NoDup selectedToken) as Hnd.
  destruct selectedToken as [|ch sel]; [contradiction|]. cbn [truthy fst snd].
  set (tok := ch :: sel) in *.
  set (others := imap _ _).
  assert (Htoks : map token others
                  = take (topKOutputTokens (visualization c) - 1)
                      (filter (fun t => t <> tok) (candidates tok)))
    by apply tokens_of_others.
  repeat split.
  - rewrite sort_Permutation. cbn.
    rewrite <- (length_map token others), Htoks, length_take, Hlen.
    reflexivity.
  - rewrite sort_Permutation. cbn. rewrite Htoks. apply NoDup_cons. split.
    + intros Hin. apply elem_of_take_elem in Hin.
      apply list_elem_of_filter in Hin. tauto.
    + eapply sublist_NoDup; [|apply sublist_take]. now apply NoDup_filter.
  - intros e He Hsel. rewrite sort_Permutation in He.
    apply elem_of_cons in He as [->|He]; [discriminate Hsel|].
    assert (Hin : token e ∈ map token others)
      by (apply list_elem_of_fmap; now exists e).
    rewrite Htoks in Hin. apply elem_of_take_elem in Hin.
    apply list_elem_of_filter in Hin as [Hneq Hin].
    apply candidates_members in Hin as [Heq|Hin]; [contradiction|exact Hin].
Qed.

(** X12: an empty selected token is no selection at all: no row is
    marked selected, the rows show the first [topK - 1] words of the
    vocabulary, and [Math.random] is not called. *)
Theorem X12_distribution_without_selection (c : Config) (k : nat)
    (ov : OutputVisualizer) :
  let r := generateDistribution random [] c k ov in
  Forall (fun e => selected e = false) (fst (fst r)) /\
  map token (fst (fst r))
    ≡ₚ take (topKOutputTokens (visualization c) - 1) vocabulary /\
  snd r = k.
Proof.
  cbn zeta. unfold generateDistribution. cbn [truthy fst snd app].
  change (candidates []) with vocabulary.
  rewrite (filter_all (fun t => t <> [])).
  2:{ apply Forall_forall. intros t Ht ->. now apply vocabulary_no_empty. }
  set (others := imap _ _).
  repeat split.
  - apply Forall_forall. intros e He. rewrite sort_Permutation in He.
    apply elem_of_lookup_imap_1 in He as (i & t & -> & _). reflexivity.
  - rewrite sort_Permutation. subst others. now rewrite tokens_of_others.
Qed.
End DistributionFacts.

Lemma X11_distribution_rows_witness :
  let probs :=
    fst (fst (Output.generateDistribution (fun _ => 0.5) (js "Hi")
                Config.CONFIG 0 {| Output.currentTokens := [] |})) in
  length probs = 5%nat /\
  NoDup (map Output.token probs) /\
  (forall e, e ∈ probs -> Output.selected e = false ->
             Output.token e ∈ Output.vocabulary) /\
  snd (Output.generateDistribution (fun _ => 0.5) (js "Hi") Config.CONFIG 0
         {| Output.currentTokens := [] |}) = 1%nat.
Proof.
  apply (X11_distribution_rows (fun _ => 0.5) (js "Hi") Config.CONFIG 0
           {| Output.currentTokens := [] |}).
  discriminate.
Defined.




(** ** Streaming client: lines across reads, and how a call ends *)

Section SplitFacts.

Lemma split_cons (c : N) (s : list N) :
  split (c :: s) =
  if (c =? 10)%N then [] :: split s
  else match split s with
       | piece :: pieces => (c :: piece) :: pieces
       | [] => [[c]]
       end.
Proof.
  unfold split. cbn [split_lf]. destruct (split_lf s) as [piece pieces].
  now destruct (c =? 10)%N.
Qed.

Lemma split_not_nil (s : list N) : split s <> [].
Proof. unfold split. now destruct (split_lf s). Qed.

Lemma removelast_cons {A : Type} (x : A) (l : list A) :
  l <> [] -> removelast (x :: l) = x :: removelast l.
Proof. now destruct l. Qed.

Lemma last_cons_ne {A : Type} (x : A) (l : list A) :
  l <> [] -> last (x :: l) = last l.
Proof. now destruct l. Qed.

(** Splitting a text that goes on: the lines that were complete stay,
    and the unfinished last piece is continued. *)
Lemma split_app (s t : list N) :
  split (s ++ t)
  = removelast (split s) ++ split (default [] (last (split s)) ++ t).
Proof.
  induction s as [|c s IH]; [reflexivity|].
  cbn [app]. rewrite !split_cons.
  pose proof (split_not_nil s) as Hne.
  destruct (c =? 10)%N eqn:Hc.
  - rewrite removelast_cons, last_cons_ne by exact Hne. cbn [app].
    now rewrite IH.
  - rewrite IH. destruct (split s) as [|piece pieces]; [contradiction|].
    destruct pieces as [|p2 pieces].
    + cbn. rewrite split_cons, Hc. reflexivity.
    + rewrite (removelast_cons piece) by discriminate.
      rewrite (removelast_cons (c :: piece)) by discriminate.
      rewrite !(last_cons_ne _ (p2 :: pieces)) by discriminate.
      reflexivity.
Qed.
End SplitFacts.

Section StreamDeliveryFacts.
Import Api ApiVariants.

Variable JSON_parse : list N -> completion JSON.
Context {S : Type}.
Variable cb : Callbacks S.

Lemma split_last_single (s : list N) :
  split (default [] (last (split s))) = [default [] (last (split s))].
Proof.
  induction s as [|c s IH]; [reflexivity|].
  rewrite split_cons. pose proof (split_not_nil s) as Hne.
  destruct (c =? 10)%N eqn:Hc.
  - now rewrite last_cons_ne.
  - destruct (split s) as [|piece pieces] eqn:E; [contradiction|].
    destruct pieces as [|p2 pieces].
    + cbn in *. rewrite split_cons, Hc, IH. reflexivity.
    + rewrite !(last_cons_ne _ (p2 :: pieces)) in * by discriminate.
      exact IH.
Qed.

(** The lines the loop sees over all the reads are the complete lines of
    the whole text received, whatever the cuts between the reads. *)
Lemma complete_lines_concat (values : list (list N)) (buffer : list N) :
  split buffer = [buffer] ->
  complete_lines values buffer = removelast (split (buffer ++ concat values)).
Proof.
  revert buffer. induction values as [|value values IH]; intros buffer Hb.
  - cbn. now rewrite app_nil_r, Hb.
  - cbn [complete_lines concat]. unfold pop.
    rewrite IH by apply split_last_single.
    rewrite app_assoc, (split_app (buffer ++ value)).
    set (rest := split (default [] (last (split (buffer ++ value))) ++ concat values)).
    assert (Hrest : rest <> []) by apply split_not_nil.
    clearbody rest. clear -Hrest.
    induction (removelast (split (buffer ++ value))) as [|l ls IHl]; [reflexivity|].
    cbn [app]. rewrite removelast_cons; [now rewrite IHl|].
    destruct ls; [exact Hrest|discriminate].
Qed.

Lemma for_lines_app (l1 l2 : list (list N)) (st : S * list Event) :
  for_lines JSON_parse cb (l1 ++ l2) st =
  match for_lines JSON_parse cb l1 st with
  | (st', Continue) => for_lines JSON_parse cb l2 st'
  | r => r
  end.
Proof.
  revert st. induction l1 as [|line l1 IH]; intros st; [reflexivity|].
  cbn [app for_lines].
  destruct (startsWith line (js "data: ")); [|apply IH].
  destruct (bool_decide (trim (drop 6 line) = js "[DONE]")); [|apply IH].
  destruct (call_onComplete cb st) as [st' [e|]]; reflexivity.
Qed.

(** The reading loop does to the caller what one pass over the complete
    lines does, followed, if no sentinel ended it, by the end of the
    body. *)
Lemma read_loop_by_lines (values : list (list N))
    (end_of_body : option JSError) (buffer : list N) (st : S * list Event) :
  read_loop JSON_parse cb values end_of_body buffer st =
  match for_lines JSON_parse cb (complete_lines values buffer) st with
  | (st', Continue) => read_loop JSON_parse cb [] end_of_body [] st'
  | (st', Return) => (st', Normal tt)
  | (st', Raise e) => (st', Throw e)
  end.
Proof.
  revert buffer st. induction values as [|value values IH]; intros buffer st;
    [reflexivity|].
  cbn [read_loop complete_lines].
  destruct (pop (split (buffer ++ value))) as [popped lines].
  rewrite for_lines_app.
  destruct (for_lines JSON_parse cb lines st) as [st1 [| |e]];
    [apply IH|reflexivity|reflexivity].
Qed.

Local Abbreviation extends := (Api.extends cb).

(** A pass over lines without a sentinel: the tokens of the lines, and
    the loop goes on. *)
Lemma for_lines_tokens (lines : list (list N)) (st : S * list Event) :
  Forall (fun l => is_sentinel l = false) lines ->
  exists st',
    for_lines JSON_parse cb lines st = (st', Continue) /\
    extends st st' (map EvToken (omap (line_token JSON_parse) lines)).
Proof.
  intros Hns.
  pose proof (for_lines_no_sentinel JSON_parse cb lines st Hns) as Hc.
  destruct (for_lines_extends JSON_parse cb lines st) as [toks Hfor].
  destruct (for_lines JSON_parse cb lines st) as [st' ex]. cbn [fst snd] in *.
  subst ex. destruct Hfor as (Hext & -> & _). now exists st'.
Qed.


Lemma complete_then_catch (s : S) (st1 : S * list Event) (toks : list JSON)
    (st2 : S * list Event) (r : option JSError) :
  extends (s, []) st1 (map EvToken toks) ->
  call_onComplete cb st1 = (st2, r) ->
  completes_after cb s toks
    (snd (fst (match r with
               | None => (st2, Normal tt)
               | Some error =>
                   let '(st', r') := call_onError cb error st2 in
                   (st', match r' with None => Normal tt | Some e => Throw e end)
               end))).
Proof.
  intros [Hlog Hst] Hcall. cbn in Hlog, Hst.
  destruct (call_onComplete_extends cb st1) as ((Hlog2 & _) & Hr).
  rewrite Hcall in Hlog2, Hr. cbn [fst snd] in *.
  unfold completes_after. rewrite <- Hst, <- Hr. destruct r as [e|].
  - pose proof (call_onError_extends cb e st2) as (Hlog3 & _).
    destruct (call_onError cb e st2) as [st3 r3]. cbn [fst snd] in *.
    rewrite Hlog3, Hlog2, Hlog. now rewrite <- app_assoc.
  - cbn. now rewrite Hlog2, Hlog.
Qed.

Section OneTransport.
Variable fetch : list N -> FetchResult.

(** X13: a request that fails before any line is read makes exactly one
    callback call, [onError]: with the rejection of [fetch], or, for a
    response that is not ok, with the error "API Error: <status> -
    <body text>" (or with the rejection of [response.text()]).  Neither
    [onToken] nor [onComplete] is called. *)
Theorem X13_request_failure (prompt : list N) (s : S) :
  let log := snd (fst (streamCompletion JSON_parse fetch cb prompt s)) in
  match fetch prompt with
  | FetchRejected e => log = [EvError e]
  | FetchResolved response =>
      ok response = false ->
      log = [EvError
               match text response with
               | Normal errorText =>
                   mkError (js "API Error: " ++ decimal (status response)
                            ++ js " - " ++ errorText)
               | Throw e => e
               end]
  end.
Proof.
  cbn zeta. unfold streamCompletion, try_block.
  destruct (fetch prompt) as [e|response].
  - pose proof (call_onError_extends cb e (s, [])) as (Hlog & _).
    destruct (call_onError cb e (s, [])) as [st' r']. exact Hlog.
  - intros ->. cbn [negb].
    destruct (text response) as [errorText|e].
    + pose proof (call_onError_extends cb
                    (mkError (js "API Error: " ++ decimal (status response)
                              ++ js " - " ++ errorText)) (s, []))
        as (Hlog & _).
      destruct (call_onError cb _ (s, [])) as [st' r']. exact Hlog.
    + pose proof (call_onError_extends cb e (s, [])) as (Hlog & _).
      destruct (call_onError cb e (s, [])) as [st' r']. exact Hlog.
Qed.

(** X15: the first sentinel line ends the delivery.  The tokens of the
    lines before it are delivered in order, then [onComplete] is called,
    and no line after the sentinel is looked at, whatever it holds;
    [onError] follows only if [onComplete] itself throws. *)
Theorem X15_sentinel_ends_delivery (prompt : list N) (s : S)
    (response : Response) (before after : list (list N))
    (sentinel : list N) :
  fetch prompt = FetchResolved response ->
  ok response = true ->
  complete_lines (chunks response) [] = before ++ sentinel :: after ->
  Forall (fun l => is_sentinel l = false) before ->
  is_sentinel sentinel = true ->
  let log := snd (fst (streamCompletion JSON_parse fetch cb prompt s)) in
  let toks := omap (line_token JSON_parse) before in
  log = map EvToken toks ++ EvComplete ::
        match snd (onComplete cb (replay cb (map EvToken toks) s)) with
        | None => []
        | Some e => [EvError e]
        end.
Proof.
  intros Hfetch Hok Hlines Hbefore Hsent log toks. subst log.
  unfold streamCompletion, try_block. rewrite Hfetch, Hok. cbn [negb].
  rewrite read_loop_by_lines, Hlines, for_lines_app.
  destruct (for_lines_tokens before (s, []) Hbefore) as (st1 & -> & Hext).
  cbn [for_lines]. unfold is_sentinel in Hsent.
  apply andb_true_iff in Hsent as [-> ->].
  destruct (call_onComplete cb st1) as [st2 r] eqn:Hcall.
  pose proof (complete_then_catch s st1 toks st2 r Hext Hcall) as H.
  unfold completes_after in H. now destruct r.
Qed.

(** X16: when a read fails on a body without a sentinel line, the
    tokens of the lines received before are delivered and then [onError]
    gets the read's error; [onComplete] is not called. *)
Theorem X16_read_failure (prompt : list N) (s : S) (response : Response)
    (e : JSError) :
  fetch prompt = FetchResolved response ->
  ok response = true ->
  ending response = Some e ->
  Forall (fun l => is_sentinel l = false)
    (complete_lines (chunks response) []) ->
  snd (fst (streamCompletion JSON_parse fetch cb prompt s))
  = map EvToken (omap (line_token JSON_parse)
                   (complete_lines (chunks response) []))
    ++ [EvError e].
Proof.
  intros Hfetch Hok Hend Hns.
  unfold streamCompletion, try_block. rewrite Hfetch, Hok, Hend. cbn [negb].
  rewrite read_loop_by_lines.
  destruct (for_lines_tokens _ (s, []) Hns) as (st1 & -> & (Hlog & _)).
  cbn [read_loop].
  pose proof (call_onError_extends cb e st1) as (Hlog' & _).
  destruct (call_onError cb e st1) as [st' r']. cbn [fst snd] in *.
  now rewrite Hlog', Hlog.
Qed.

Lemma handle_data_mute (data : list N) (st : S * list Event) :
  handle_data JSON_parse (mute cb) data st = handle_data JSON_parse cb data st.
Proof.
  unfold handle_data.
  destruct (JSON_parse data) as [parsed|]; [|reflexivity].
  destruct (delta_content parsed) as [[content|]|]; try reflexivity.
  destruct (truthy content); [|reflexivity].
  unfold call_onToken. cbn. now destruct (onToken cb content (fst st)).
Qed.

Lemma for_lines_mute (lines : list (list N)) (st : S * list Event) :
  for_lines JSON_parse (mute cb) lines st = for_lines JSON_parse cb lines st.
Proof.
  revert st. induction lines as [|line lines IH]; intros st; [reflexivity|].
  cbn [for_lines]. destruct (startsWith line (js "data: ")); [|apply IH].
  destruct (bool_decide (trim (drop 6 line) = js "[DONE]")); [reflexivity|].
  rewrite handle_data_mute. apply IH.
Qed.

Lemma read_loop_mute (values : list (list N)) (end_of_body : option JSError)
    (buffer : list N) (st : S * list Event) :
  read_loop JSON_parse (mute cb) values end_of_body buffer st
  = read_loop JSON_parse cb values end_of_body buffer st.
Proof.
  revert buffer st. induction values as [|value values IH]; intros buffer st;
    [reflexivity|].
  cbn [read_loop]. destruct (pop (split (buffer ++ value))) as [popped lines].
  rewrite for_lines_mute.
  destruct (for_lines JSON_parse cb lines st) as [st1 [| |e]];
    [apply IH|reflexivity|reflexivity].
Qed.

(** X17: an exception thrown by [onToken] never leaves the client and
    never reaches [onError]: the call does the same, and settles the
    same, as with an [onToken] that has the same effect and returns
    normally.  The promise rejects only with what [onError] itself
    throws. *)
Theorem X17_onToken_exceptions_swallowed (prompt : list N) (s : S) :
  streamCompletion JSON_parse fetch (mute cb) prompt s
  = streamCompletion JSON_parse fetch cb prompt s /\
  (forall e,
     snd (streamCompletion JSON_parse fetch cb prompt s) = Throw e ->
     exists error s0, snd (onError cb error s0) = Some e).
Proof.
  split.
  - unfold streamCompletion, try_block.
    destruct (fetch prompt) as [e|response]; [reflexivity|].
    destruct (negb (ok response)); [reflexivity|].
    now rewrite read_loop_mute.
  - intros e. unfold streamCompletion.
    destruct (try_block JSON_parse fetch cb prompt (s, [])) as [st [u|error]];
      [discriminate|].
    unfold call_onError.
    destruct (onError cb error (fst st)) as [s' [e'|]] eqn:E; [|discriminate].
    intros [= <-]. exists error, (fst st). now rewrite E.
Qed.

End OneTransport.

(** X14: how the transport cuts the body into reads does not matter.
    Two responses that agree on status, error text and the way the body
    ends, and whose decoded chunks joined give the same text, make the
    same callback calls in the same order and settle the promise
    alike. *)
Theorem X14_reads_may_cut_anywhere (fetch1 fetch2 : list N -> FetchResult)
    (prompt : list N) (s : S) (r1 r2 : Response) :
  fetch1 prompt = FetchResolved r1 ->
  fetch2 prompt = FetchResolved r2 ->
  ok r1 = ok r2 -> status r1 = status r2 -> text r1 = text r2 ->
  ending r1 = ending r2 ->
  concat (chunks r1) = concat (chunks r2) ->
  streamCompletion JSON_parse fetch1 cb prompt s
  = streamCompletion JSON_parse fetch2 cb prompt s.
Proof.
  intros H1 H2 Hok Hstatus Htext Hend Hbody.
  unfold streamCompletion, try_block.
  rewrite H1, H2, Hok, Hstatus, Htext, Hend.
  destruct (negb (ok r2)); [reflexivity|].
  rewrite !read_loop_by_lines, !complete_lines_concat by reflexivity.
  cbn [app]. now rewrite Hbody.
Qed.

End StreamDeliveryFacts.



(** ** Orchestrator: a rejected submit and a successful run *)

Section RunFacts.
Import Api App AppStages.

Variable JSON_parse : list N -> completion JSON.
Variable fetch : list N -> FetchResult.
Variable animators : Animators.
Variable ToString_other : JSON -> list N.

Local Abbreviation cbs := (callbacks ToString_other).

Lemma trimStart_whitespace (s : list N) :
  forallb isWhiteSpace s = true -> trimStart s = [].
Proof.
  induction s as [|c s IH]; [reflexivity|].
  cbn [forallb trimStart]. intros H. apply andb_true_iff in H as [-> Hs].
  now apply IH.
Qed.

Lemma trim_whitespace (s : list N) :
  forallb isWhiteSpace s = true -> trim s = [].
Proof. intros H. unfold trim. now rewrite (trimStart_whitespace s H). Qed.

(** X18: a submit while a run is in progress, or with an input of white
    space only, changes nothing on the page. *)
Theorem X18_process_rejected_submit (a : App) :
  isProcessing a = true \/ forallb isWhiteSpace (input_value a) = true ->
  process JSON_parse fetch animators ToString_other a = a.
Proof.
  unfold process. intros [->|Hws]; [reflexivity|].
  rewrite (trim_whitespace _ Hws). now destruct (isProcessing a).
Qed.


Lemma run_stages_early_stages (prompt : list N) (a : App) :
  run_stages JSON_parse fetch animators ToString_other prompt a =
  match early_stages animators prompt a with
  | (a4, Done) =>
      runOutputGeneration JSON_parse fetch ToString_other prompt a4
  | r => r
  end.
Proof.
  unfold run_stages, early_stages, and_then.
  destruct (runTokenization animators prompt a) as [a1 [| |]]; try reflexivity.
  destruct (runEmbeddings animators a1) as [a2 [| |]]; try reflexivity.
  destruct (runAttention animators a2) as [a3 [| |]]; try reflexivity.
  destruct (runFFN animators a3) as [a4 [| |]]; reflexivity.
Qed.

Lemma token_label_nonempty (n : N) : token_label n <> [].
Proof.
  unfold token_label. intros H. apply app_eq_nil in H as [_ H].
  discriminate H.
Qed.

Lemma layers_updateLayerStatus_same (layer : Layer) (s : Status)
    (text : list N) (a : App) :
  text <> [] ->
  layers (updateLayerStatus layer s text a) layer
  = {| container_class := s; status_text := text |}.
Proof.
  intros Hne. unfold updateLayerStatus. cbn [layers set_layers].
  destruct (decide (layer = layer)); [|contradiction].
  now destruct text.
Qed.

(** What the token callbacks have done after the tokens [toks]. *)
Lemma replay_tokens_state (toks : list JSON) (run : Run) :
  let run' := replay cbs (map EvToken toks) run in
  tokenCount run' = (tokenCount run + N.of_nat (length toks))%N /\
  responseOutput (app run')
  = responseOutput (app run) ++ concat (map (ToString ToString_other) toks) /\
  (forall l, l <> output -> layers (app run') l = layers (app run) l) /\
  tokenizer (app run') = tokenizer (app run) /\
  promise run' = promise run.
Proof.
  revert run. induction toks as [|t toks IH]; intros run.
  - cbn. rewrite app_nil_r. repeat split. lia.
  - cbn [map replay length concat].
    destruct (IH (fst (onToken cbs t run))) as (Hc & Hr & Hl & Ht & Hp).
    cbn [onToken callbacks] in *. cbn zeta in *. rewrite Hc, Hr, Ht, Hp.
    assert (Hstep :
      tokenCount (fst (on_token ToString_other t run)) = (tokenCount run + 1)%N /\
      responseOutput (app (fst (on_token ToString_other t run)))
      = responseOutput (app run) ++ ToString ToString_other t /\
      (forall l, l <> output ->
         layers (app (fst (on_token ToString_other t run))) l
         = layers (app run) l) /\
      tokenizer (app (fst (on_token ToString_other t run))) = tokenizer (app run) /\
      promise (fst (on_token ToString_other t run)) = promise run).
    { unfold on_token. destruct (firstToken run); [destruct t|];
        cbn; repeat split; intros l Hne;
        destruct (decide (l = output)); congruence. }
    destruct Hstep as (Sc & Sr & Sl & St & Sp).
    rewrite Sc, Sr, St, Sp. repeat split.
    + lia.
    + now rewrite <- app_assoc.
    + intros l Hne. rewrite (Hl l Hne). now apply Sl.
Qed.

(** X19: a run in which every animation resolves and the client
    delivers the tokens [toks] and completes: the response shown is the
    texts of the tokens joined in order, the output layer is completed
    and labelled with their number, all five layers are completed, the
    tokenizer holds the tokens of the trimmed prompt, and the page is
    idle again with the submit button enabled and the cursor off. *)
Theorem X19_successful_run (a : App) (toks : list JSON) :
  isProcessing a = false ->
  trim (input_value a) <> [] ->
  first_rejection animators = None ->
  let prompt := trim (input_value a) in
  snd (fst (streamCompletion JSON_parse fetch cbs prompt
              (begin_output (fst (early_stages animators prompt (start a))))))
  = map EvToken toks ++ [EvComplete] ->
  let a' := process JSON_parse fetch animators ToString_other a in
  responseOutput a' = concat (map (ToString ToString_other) toks) /\
  layers a' output
  = {| container_class := completed;
       status_text := token_label (N.of_nat (length toks)) |} /\
  (forall l, container_class (layers a' l) = completed) /\
  Tokenizer.getTokens (tokenizer a')
  = fst (Tokenizer.tokenize prompt {| Tokenizer.tokens := [] |}) /\
  isProcessing a' = false /\
  submitBtn_disabled a' = false /\
  responseCursor_active a' = false.
Proof.
  intros Hidle Hprompt Hrej prompt Hlog a'. subst a'.
  unfold process. rewrite Hidle. fold prompt.
  destruct prompt as [|c p] eqn:Ep; [contradiction|]. rewrite <- Ep in *.
  rewrite run_stages_early_stages.
  assert (Hearly : snd (early_stages animators prompt (start a)) = Done /\
                   (forall l, l <> output ->
                      container_class
                        (layers (fst (early_stages animators prompt (start a))) l)
                      = completed) /\
                   responseOutput (fst (early_stages animators prompt (start a))) = [] /\
                   Tokenizer.getTokens
                     (tokenizer (fst (early_stages animators prompt (start a))))
                   = fst (Tokenizer.tokenize prompt {| Tokenizer.tokens := [] |})).
  { unfold first_rejection in Hrej.
    unfold early_stages, and_then, runTokenization, runEmbeddings,
      runAttention, runFFN.
    destruct (tokenizer_animate animators); [|discriminate].
    destruct (embeddings_animate animators); [|discriminate].
    destruct (attention_animate animators); [|discriminate].
    destruct (ffn_animate animators); [|discriminate].
    split; [reflexivity|]. split; [|split; reflexivity].
    intros l Hl. destruct l; try reflexivity. contradiction. }
  destruct (early_stages animators prompt (start a)) as [a4 o].
  cbn [fst snd] in *. destruct Hearly as (-> & Hlayers & Hresp & Htok).
  unfold runOutputGeneration.
  destruct (streamCompletion_log JSON_parse fetch cbs prompt (begin_output a4))
    as (Hst & _).
  cbn zeta in Hst. rewrite Hst, Hlog, replay_app.
  destruct (replay_tokens_state toks (begin_output a4))
    as (Hc & Hr & Hl & Ht & Hp).
  cbn zeta in *. set (run1 := replay cbs (map EvToken toks) (begin_output a4)) in *.
  cbn [replay onComplete callbacks fst].
  unfold on_complete, settle. cbn [promise set_app fst]. rewrite Hp.
  cbn [begin_output promise app snd fst].
  cbn [set_app app].
  set (a5 := updateLayerStatus output completed
               (token_label (tokenCount run1)) (app run1)).
  assert (H5 : layers a5 output
               = {| container_class := completed;
                    status_text := token_label (tokenCount run1) |})
    by apply layers_updateLayerStatus_same, token_label_nonempty.
  split; [|split; [|split; [|split; [|repeat split]]]].
  - change (responseOutput (app run1)
            = concat (map (ToString ToString_other) toks)).
    rewrite Hr. change (responseOutput (app (begin_output a4)))
      with (responseOutput a4). now rewrite Hresp.
  - change (layers a5 output
            = {| container_class := completed;
                 status_text := token_label (N.of_nat (length toks)) |}).
    rewrite H5, Hc. reflexivity.
  - intros l. change (container_class (layers a5 l) = completed).
    destruct (decide (l = output)) as [->|Hne]; [now rewrite H5|].
    subst a5. rewrite layers_updateLayerStatus_other, (Hl l Hne) by exact Hne.
    unfold begin_output. cbn [app set_responseCursor_active layers].
    rewrite layers_updateLayerStatus_other by exact Hne. now apply Hlayers.
  - change (Tokenizer.getTokens (tokenizer (app run1))
            = fst (Tokenizer.tokenize prompt {| Tokenizer.tokens := [] |})).
    now rewrite Ht.
Qed.
End RunFacts.



(** ** Network diagram: [shuffle] and the particle targets *)

Section NetworkFacts.
Import Network.

Variable random : nat -> R.
Hypothesis random_range : forall k, (0 <= random k < 1)%R.

Lemma random_index_range (k i : nat) :
  (0 <= Int_part (random k * INR (i + 1)) <= Z.of_nat i)%Z.
Proof.
  pose proof (random_range k) as Hr.
  pose proof (base_Int_part (random k * INR (i + 1))) as [Hlo Hhi].
  pose proof (pos_INR (i + 1)) as Hpos.
  rewrite plus_INR in *. cbn [INR] in *.
  pose proof (pos_INR i) as Hi.
  set (z := Int_part (random k * (INR i + 1))) in *.
  assert (H0 : (-1 < IZR z)%R) by nra.
  assert (H1 : (IZR z < INR i + 1)%R) by nra.
  rewrite INR_IZR_INZ in H1. rewrite <- (plus_IZR _ 1) in H1.
  apply lt_IZR in H0, H1. lia.
Qed.

Lemma swap_Permutation {A} (array array' : list A) (i : nat) (j : Z) :
  swap array i j = Some array' ->
  array' ≡ₚ array /\ length array' = length array.
Proof.
  unfold swap, at_index.
  destruct (array !! i) as [ai|] eqn:Hi; [|discriminate].
  destruct (j <? 0)%Z; [discriminate|].
  set (m := Z.to_nat j).
  destruct (array !! m) as [aj|] eqn:Hj; [|discriminate].
  intros [= <-].
  assert (Hlen : length (<[m:=ai]> (<[i:=aj]> array)) = length array)
    by now rewrite !length_insert.
  split; [|exact Hlen].
  pose proof (lookup_lt_Some _ _ _ Hi) as Hli.
  pose proof (lookup_lt_Some _ _ _ Hj) as Hlm.
  apply Permutation_inj. split; [exact Hlen|].
  exists (fun n => if decide (n = m) then i else if decide (n = i) then m else n).
  split.
  - intros x y. repeat case_decide; intros; subst; congruence.
  - intros n. destruct (decide (n = m)) as [->|Hnm].
    + rewrite list_lookup_insert_eq by now rewrite length_insert.
      now rewrite Hi.
    + rewrite list_lookup_insert_ne by congruence.
      destruct (decide (n = i)) as [->|Hni].
      * rewrite list_lookup_insert_eq by exact Hli. now rewrite Hj.
      * now rewrite list_lookup_insert_ne by congruence.
Qed.

Lemma shuffle_from_Permutation {A} (i k : nat) (array : list A) :
  (i < length array \/ i = 0)%nat ->
  exists array',
    shuffle_from random i k array = Some (array', (k + i)%nat) /\
    array' ≡ₚ array.
Proof.
  revert k array. induction i as [|i IH]; intros k array Hi.
  - exists array. cbn. now rewrite Nat.add_0_r.
  - destruct Hi as [Hi|Hi]; [|discriminate].
    cbn [shuffle_from].
    pose proof (random_index_range k (S i)) as Hj.
    set (j := Int_part (random k * INR (S i + 1))) in *.
    destruct (swap array (S i) j) as [array1|] eqn:Hs.
    + destruct (swap_Permutation _ _ _ _ Hs) as [Hp Hl].
      destruct (IH (S k) array1) as (array' & He & Hp'); [left; lia|].
      exists array'. rewrite He. split; [f_equal; f_equal; lia|].
      now rewrite Hp'.
    + exfalso. unfold swap, at_index in Hs.
      destruct (lookup_lt_is_Some_2 array (S i) Hi) as [ai Hai].
      rewrite Hai in Hs.
      destruct (j <? 0)%Z eqn:Hneg; [lia|].
      destruct (lookup_lt_is_Some_2 array (Z.to_nat j)) as [aj Haj]; [lia|].
      now rewrite Haj in Hs.
Qed.

(** X20: with [Math.random] in [0, 1), [shuffle(array)] returns the
    elements of the array in some order, none lost and none repeated, it
    never reads or writes outside the array, and it calls [Math.random]
    [array.length - 1] times (not at all on an empty array). *)
Theorem X20_shuffle_permutes {A} (k : nat) (array : list A) :
  exists array',
    shuffle random k array = Some (array', (k + (length array - 1))%nat) /\
    array' ≡ₚ array.
Proof.
  unfold shuffle. apply shuffle_from_Permutation. lia.
Qed.

(** X21: the particles [createParticles] sends from a node go to
    [min(3, n)] different nodes of the next layer, each a valid index
    below the layer's size [n]. *)
Theorem X21_particle_targets (k toLayer_length : nat) :
  exists targets,
    targetIndices random k toLayer_length =
      Some (targets, (k + (toLayer_length - 1))%nat) /\
    length targets = Nat.min 3 toLayer_length /\
    NoDup targets /\
    Forall (fun toIndex => (toIndex < toLayer_length)%nat) targets.
Proof.
  unfold targetIndices, shuffle.
  destruct (shuffle_from_Permutation (length (seq 0 toLayer_length) - 1) k
              (seq 0 toLayer_length)) as (array' & He & Hp); [lia|].
  rewrite He, length_seq.
  exists (take (Nat.min 3 toLayer_length) array'). split; [reflexivity|].
  assert (Hlen : length array' = toLayer_length)
    by now rewrite Hp, length_seq.
  split; [rewrite length_take; lia|]. split.
  - eapply sublist_NoDup; [|apply sublist_take].
    rewrite Hp. apply NoDup_seq.
  - apply Forall_take. rewrite Hp. apply Forall_seq. intros; lia.
Qed.

End NetworkFacts.

(** ** The properties on the scenarios *)

(** Two tokens and every draw equal to one half: the second row. *)
Lemma X9_attention_entries_bounded_witness :
  let random := fun _ : nat => (1 / 2)%R in
  let ws :=
    fst (fst (Attention.generateAttentionWeights random
                [js "<BOS>"; js "Hi"] Config.CONFIG 0
                {| Attention.tokens := [];
                   Attention.attentionWeights := [] |})) in
  exists row w,
    ws !! 1%nat = Some row /\ row !! 0%nat = Some w /\
    (0 <= w <= 1)%R /\
    ((0 <= 1)%nat -> (0 < w)%R) /\
    exists d, row !! 1%nat = Some d /\ (w <= d)%R.
Proof.
  intros random ws. eexists _, _.
  split; [reflexivity|]. split; [reflexivity|].
  apply (X9_attention_entries_bounded random
           (fun k => conj (ltac:(unfold random; lra) : (0 <= random k)%R)
                          (ltac:(unfold random; lra) : (random k < 1)%R))
           [js "<BOS>"; js "Hi"] Config.CONFIG 0
           {| Attention.tokens := []; Attention.attentionWeights := [] |}
           1 0); reflexivity.
Defined.

(** The same run: the cell of rank 1, above the diagonal. *)
Lemma X22_attention_cells_defined_witness :
  let random := fun _ : nat => (1 / 2)%R in
  let av' :=
    snd (fst (Attention.generateAttentionWeights random
                [js "<BOS>"; js "Hi"] Config.CONFIG 0
                (Attention.clear {| Attention.tokens := [];
                                    Attention.attentionWeights := [] |}))) in
  exists weight,
    AttentionView.cell_weight av' 1 = Some weight /\
    (0 <= weight <= 1)%R /\
    ((1 / length (Attention.tokens av') < 1 mod length (Attention.tokens av'))%nat
     -> weight = 0%R).
Proof.
  intros random av'.
  apply (X22_attention_cells_defined random
           (fun k => conj (ltac:(unfold random; lra) : (0 <= random k)%R)
                          (ltac:(unfold random; lra) : (random k < 1)%R))
           [js "<BOS>"; js "Hi"] Config.CONFIG 0
           {| Attention.tokens := []; Attention.attentionWeights := [] |} 1).
  cbn. lia.
Defined.

Lemma X13_request_failure_witness :
  Scenarios.log_of Scenarios.response_D Scenarios.quiet
  = [Api.EvError
       (mkError (js "API Error: " ++ decimal 500 ++ js " - "
                 ++ js "Internal Server Error"))].
Proof.
  exact (X13_request_failure Scenarios.parse_Hi Scenarios.quiet
           (Scenarios.respond Scenarios.response_D) (js "Hello") tt
           eq_refl).
Defined.

(** The body of [response_no_sentinel], received in one read. *)
Lemma X14_reads_may_cut_anywhere_witness :
  let whole :=
    {| Api.ok := true; Api.status := 200; Api.text := Normal [];
       Api.chunks := [js "data: " ++ Scenarios.payload_Hi ++ Scenarios.LF
                      ++ js "data: [DO"];
       Api.ending := None |} in
  Api.streamCompletion Scenarios.parse_Hi
    (Scenarios.respond Scenarios.response_no_sentinel) Scenarios.quiet
    (js "Hello") tt
  = Api.streamCompletion Scenarios.parse_Hi (Scenarios.respond whole)
      Scenarios.quiet (js "Hello") tt.
Proof.
  intros whole.
  apply (X14_reads_may_cut_anywhere Scenarios.parse_Hi Scenarios.quiet
           (Scenarios.respond Scenarios.response_no_sentinel)
           (Scenarios.respond whole) (js "Hello") tt
           Scenarios.response_no_sentinel whole); reflexivity.
Defined.

Lemma X15_sentinel_ends_delivery_witness :
  Scenarios.log_of Scenarios.response_C Scenarios.quiet
  = [Api.EvToken (Api.JString (js "Hi")); Api.EvComplete].
Proof.
  apply (X15_sentinel_ends_delivery Scenarios.parse_Hi Scenarios.quiet
           (Scenarios.respond Scenarios.response_C) (js "Hello") tt
           Scenarios.response_C
           [js "data: " ++ Scenarios.payload_Hi; []] [[]]
           (js "data: [DONE]")).
  - reflexivity.
  - reflexivity.
  - reflexivity.
  - repeat constructor.
  - reflexivity.
Defined.

Lemma X16_read_failure_witness :
  Scenarios.log_of Scenarios.response_read_fails Scenarios.quiet
  = [Api.EvToken (Api.JString (js "Hi"));
     Api.EvError (mkError (js "network error"))].
Proof.
  apply (X16_read_failure Scenarios.parse_Hi Scenarios.quiet
           (Scenarios.respond Scenarios.response_read_fails) (js "Hello") tt
           Scenarios.response_read_fails (mkError (js "network error"))).
  - reflexivity.
  - reflexivity.
  - reflexivity.
  - vm_compute. repeat constructor.
Defined.

(** A second submit while the first run is in progress. *)
Lemma X18_process_rejected_submit_witness :
  App.process Scenarios.parse_Hi (Scenarios.respond Scenarios.response_C)
    Scenarios.all_resolve Scenarios.no_other_tokens
    (App.set_isProcessing true Scenarios.page)
  = App.set_isProcessing true Scenarios.page.
Proof.
  apply (X18_process_rejected_submit Scenarios.parse_Hi
           (Scenarios.respond Scenarios.response_C) Scenarios.all_resolve
           Scenarios.no_other_tokens
           (App.set_isProcessing true Scenarios.page)).
  left. reflexivity.
Defined.

(** The page of the scenarios, on the response of scenario C. *)
Lemma X19_successful_run_witness :
  let a' :=
    App.process Scenarios.parse_Hi (Scenarios.respond Scenarios.response_C)
      Scenarios.all_resolve Scenarios.no_other_tokens Scenarios.page in
  App.responseOutput a' = js "Hi" /\
  App.layers a' App.output
  = {| App.container_class := App.completed;
       App.status_text := App.token_label 1 |} /\
  (forall l, App.container_class (App.layers a' l) = App.completed) /\
  Tokenizer.getTokens (App.tokenizer a')
  = [js "<BOS>"; js "Hello"; js ","; js "world"; js "!"; js "<EOS>"] /\
  App.isProcessing a' = false /\
  App.submitBtn_disabled a' = false /\
  App.responseCursor_active a' = false.
Proof.
  apply (X19_successful_run Scenarios.parse_Hi
           (Scenarios.respond Scenarios.response_C) Scenarios.all_resolve
           Scenarios.no_other_tokens Scenarios.page
           [Api.JString (js "Hi")]).
  - reflexivity.
  - vm_compute. discriminate.
  - reflexivity.
  - vm_compute. reflexivity.
Defined.

Lemma X20_shuffle_permutes_witness :
  exists array',
    Network.shuffle (fun _ => 0%R) 0 [js "a"; js "b"; js "c"]
    = Some (array', 2%nat) /\
    array' ≡ₚ [js "a"; js "b"; js "c"].
Proof.
  apply (X20_shuffle_permutes (fun _ => 0%R)
           (fun _ => conj (Rle_refl 0) Rlt_0_1) 0
           [js "a"; js "b"; js "c"]).
Defined.

Lemma X21_particle_targets_witness :
  exists targets,
    Network.targetIndices (fun _ => 0%R) 0 8 = Some (targets, 7%nat) /\
    length targets = 3%nat /\
    NoDup targets /\
    Forall (fun toIndex => (toIndex < 8)%nat) targets.
Proof.
  apply (X21_particle_targets (fun _ => 0%R)
           (fun _ => conj (Rle_refl 0) Rlt_0_1) 0 8).
Defined.
